(** * Transfer-queue task executor and worker-deployment activities

    A shallow embedding of
    - [pushActivity], [pushWorkflowTask], [deleteExecution] and
      [isCloseExecutionTaskPending] of the history service's
      [transferQueueTaskExecutorBase], and
    - the per-task-queue fan-out of the worker-deployment activities
      [SyncUnversionedRamp] and
      [SyncDeploymentVersionUserDataFromWorkerDeployment].

    Calls that leave the executor (matching client, workflow cache, shard
    context, delete manager, mutable-state helpers) are interfaces; every
    call is recorded in a trace of events, so that "is invoked", "is not
    invoked" and "exactly once" are statements about the trace. *)

From Stdlib Require Import ZArith List Lia.
From stdpp Require Import base strings list gmap fin_maps.
Import ListNotations.

Local Open Scope Z_scope.

(** ** Go errors *)

(** The error values the modelled code can tell apart.  A Go [error]
    interface value is an [option error]; [None] is [nil]. *)
Inductive error : Type :=
| NotFound (msg : string)              (* serviceerror.NotFound *)
| ErrDependencyTaskNotCompleted        (* consts.ErrDependencyTaskNotCompleted *)
| ErrTaskVersionMismatch               (* consts.ErrTaskVersionMismatch *)
| OtherError (msg : string).           (* every other error value *)

#[global] Instance error_eq_dec : EqDecision error.
Proof. solve_decision. Defined.

(** The pair [(value, err)] a Go call returns, for callees that return a
    value exactly when [err == nil]. *)
Inductive result (A : Type) : Type :=
| Ok (a : A)
| Err (e : error).
Arguments Ok {A} a.
Arguments Err {A} e.

Definition err_of {A} (r : result A) : option error :=
  match r with
  | Ok _ => None
  | Err e => Some e
  end.

(** The type assertion of [err] to a pointer to [serviceerror.NotFound];
    it fails on [nil]. *)
Definition isNotFound (err : option error) : bool :=
  match err with
  | Some (NotFound _) => true
  | _ => false
  end.

(** ** Traces *)

(** A computation that appends events to a trace. *)
Definition M (E A : Type) : Type := list E -> A * list E.

Definition ret {E A} (a : A) : M E A := fun tr => (a, tr).

Definition bind {E A B} (m : M E A) (k : A -> M E B) : M E B :=
  fun tr => let (a, tr') := m tr in k a tr'.

Definition emit {E} (e : E) : M E unit := fun tr => (tt, tr ++ [e]).

(** [defer f]: run [body], then [f] applied to the value being returned. *)
Definition defer {E A} (f : A -> M E unit) (body : M E A) : M E A :=
  bind body (fun a => bind (f a) (fun _ => ret a)).

Definition run {E A} (m : M E A) : A * list E := m [].

Declare Scope trace_scope.
Delimit Scope trace_scope with trace.
Notation "x <- m ;; k" := (bind m (fun x => k))
  (at level 100, m at next level, right associativity) : trace_scope.
Notation "m ;; k" := (bind m (fun _ => k))
  (at level 100, right associativity) : trace_scope.
Local Open Scope trace_scope.

(** ** Wire types of the dispatch calls *)

Inductive TaskQueueKind : Type :=
| TASK_QUEUE_KIND_UNSPECIFIED
| TASK_QUEUE_KIND_NORMAL
| TASK_QUEUE_KIND_STICKY.

Record TaskQueue : Type := {
  tq_Name : string;
  tq_Kind : TaskQueueKind;
}.

Record WorkflowExecution : Type := {
  WorkflowId : string;
  RunId : string;
}.

(** [vclock.NewVectorClock(clusterID, shardID, clock)] *)
Record VectorClock : Type := NewVectorClock {
  vc_ClusterId : Z;
  vc_ShardId : Z;
  vc_Clock : Z;
}.

(** [durationpb.Duration] and [durationpb.New]; a [time.Duration] is a
    number of nanoseconds, Go's [/] truncates towards zero. *)
Record Duration : Type := {
  Seconds : Z;
  Nanos : Z;
}.

Definition durationpb_New (d : Z) : Duration :=
  let nanos := d in
  let secs := Z.quot nanos 1000000000 in
  let nanos := nanos - secs * 1000000000 in
  {| Seconds := secs; Nanos := nanos |}.

Definition AsDuration (x : Duration) : Z := Seconds x * 1000000000 + Nanos x.

(** [tasks.ActivityTask] and [tasks.WorkflowTask], the fields read here. *)
Record ActivityTask : Type := {
  at_NamespaceID : string;
  at_WorkflowID : string;
  at_RunID : string;
  at_TaskID : Z;
  at_TaskQueue : string;
  at_ScheduledEventID : Z;
  at_Stamp : Z;
}.

Record WorkflowTask : Type := {
  wt_NamespaceID : string;
  wt_WorkflowID : string;
  wt_RunID : string;
  wt_TaskID : Z;
  wt_ScheduledEventID : Z;
}.

Section Dispatcher.

(** [*taskqueuespb.TaskVersionDirective] with its generated getter,
    [*commonpb.Priority] and [historyi.TransactionPolicy] are declared
    outside the executor; the executor only passes them on, except for
    the nil test on [GetUseAssignmentRules]. *)
Context {TaskVersionDirective Priority TransactionPolicy Empty : Type}.
Variable GetUseAssignmentRules : TaskVersionDirective -> option Empty.

Record AddActivityTaskRequest : Type := {
  aat_NamespaceId : string;
  aat_Execution : WorkflowExecution;
  aat_TaskQueue : TaskQueue;
  aat_ScheduledEventId : Z;
  aat_ScheduleToStartTimeout : option Duration;
  aat_Clock : VectorClock;
  aat_VersionDirective : TaskVersionDirective;
  aat_Stamp : Z;
  aat_Priority : Priority;
}.

Record AddWorkflowTaskRequest : Type := {
  awt_NamespaceId : string;
  awt_Execution : WorkflowExecution;
  awt_TaskQueue : TaskQueue;
  awt_ScheduledEventId : Z;
  awt_ScheduleToStartTimeout : option Duration;
  awt_Clock : VectorClock;
  awt_VersionDirective : TaskVersionDirective;
  awt_Priority : Priority;
}.

(** Both responses carry the build id matching assigned. *)
Record AddTaskResponse : Type := {
  AssignedBuildId : string;
}.

(** What the dispatcher does to the outside world. *)
Inductive DispatchEvent : Type :=
| EvAddActivityTask (req : AddActivityTaskRequest)
| EvAddWorkflowTask (req : AddWorkflowTaskRequest)
| EvLogError (msg : string) (err : option error)
| EvUpdateIndependentActivityBuildId
    (task : ActivityTask) (buildId : string) (policy : TransactionPolicy)
| EvInitializeWorkflowAssignedBuildId
    (task : WorkflowTask) (buildId : string) (policy : TransactionPolicy).

(** [resource.MatchingRawClient], the two calls used. *)
Class MatchingRawClient : Type := {
  AddActivityTask : AddActivityTaskRequest -> result AddTaskResponse;
  AddWorkflowTask : AddWorkflowTaskRequest -> result AddTaskResponse;
}.

(** The shard context as the dispatcher reads it. *)
Class ShardIdentity : Type := {
  GetClusterID : Z;
  GetShardID : Z;
}.

(** The two mutable-state helpers of the history package; each call is
    one mutable-state update and returns that update's error. *)
Class BuildIdUpdater : Type := {
  updateIndependentActivityBuildId_result :
    ActivityTask -> string -> TransactionPolicy -> option error;
  initializeWorkflowAssignedBuildId_result :
    WorkflowTask -> string -> TransactionPolicy -> option error;
}.

Context {matchingRawClient : MatchingRawClient}
        {shardContext : ShardIdentity}
        {buildIdUpdater : BuildIdUpdater}.

Definition call_AddActivityTask (req : AddActivityTaskRequest)
  : M DispatchEvent (result AddTaskResponse) :=
  emit (EvAddActivityTask req) ;; ret (AddActivityTask req).

Definition call_AddWorkflowTask (req : AddWorkflowTaskRequest)
  : M DispatchEvent (result AddTaskResponse) :=
  emit (EvAddWorkflowTask req) ;; ret (AddWorkflowTask req).

Definition logError (msg : string) (err : option error) : M DispatchEvent unit :=
  emit (EvLogError msg err).

Definition updateIndependentActivityBuildId
    (task : ActivityTask) (buildId : string) (policy : TransactionPolicy)
  : M DispatchEvent (option error) :=
  emit (EvUpdateIndependentActivityBuildId task buildId policy) ;;
  ret (updateIndependentActivityBuildId_result task buildId policy).

Definition initializeWorkflowAssignedBuildId
    (task : WorkflowTask) (buildId : string) (policy : TransactionPolicy)
  : M DispatchEvent (option error) :=
  emit (EvInitializeWorkflowAssignedBuildId task buildId policy) ;;
  ret (initializeWorkflowAssignedBuildId_result task buildId policy).

(** The request literal of [pushActivity]. *)
Definition addActivityTaskRequest
    (task : ActivityTask)
    (activityScheduleToStartTimeout : Z)
    (directive : TaskVersionDirective)
    (priority : Priority)
  : AddActivityTaskRequest :=
  {| aat_NamespaceId := at_NamespaceID task;
     aat_Execution := {| WorkflowId := at_WorkflowID task;
                         RunId := at_RunID task |};
     aat_TaskQueue := {| tq_Name := at_TaskQueue task;
                         tq_Kind := TASK_QUEUE_KIND_NORMAL |};
     aat_ScheduledEventId := at_ScheduledEventID task;
     aat_ScheduleToStartTimeout :=
       Some (durationpb_New activityScheduleToStartTimeout);
     aat_Clock := NewVectorClock GetClusterID GetShardID (at_TaskID task);
     aat_VersionDirective := directive;
     aat_Stamp := at_Stamp task;
     aat_Priority := priority |}.

Definition pushActivity
    (task : ActivityTask)
    (activityScheduleToStartTimeout : Z)
    (directive : TaskVersionDirective)
    (priority : Priority)
    (transactionPolicy : TransactionPolicy)
  : M DispatchEvent (option error) :=
  r <- call_AddActivityTask
         (addActivityTaskRequest
            task activityScheduleToStartTimeout directive priority) ;;
  let err := err_of r in
  (if isNotFound err
   then logError "Matching returned not found error for AddActivityTask" err
   else ret tt) ;;
  match r with
  | Err e => ret (Some e)
  | Ok resp =>
      match GetUseAssignmentRules directive with
      | None => ret None
      | Some _ =>
          updateIndependentActivityBuildId
            task (AssignedBuildId resp) transactionPolicy
      end
  end.

(** The request literal of [pushWorkflowTask], with the [sst] computed
    before it. *)
Definition addWorkflowTaskRequest
    (task : WorkflowTask)
    (taskqueue : TaskQueue)
    (workflowTaskScheduleToStartTimeout : Z)
    (directive : TaskVersionDirective)
    (priority : Priority)
  : AddWorkflowTaskRequest :=
  let sst :=
    if 0 <? workflowTaskScheduleToStartTimeout
    then Some (durationpb_New workflowTaskScheduleToStartTimeout)
    else None in
  {| awt_NamespaceId := wt_NamespaceID task;
     awt_Execution := {| WorkflowId := wt_WorkflowID task;
                         RunId := wt_RunID task |};
     awt_TaskQueue := taskqueue;
     awt_ScheduledEventId := wt_ScheduledEventID task;
     awt_ScheduleToStartTimeout := sst;
     awt_Clock := NewVectorClock GetClusterID GetShardID (wt_TaskID task);
     awt_VersionDirective := directive;
     awt_Priority := priority |}.

Definition pushWorkflowTask
    (task : WorkflowTask)
    (taskqueue : TaskQueue)
    (workflowTaskScheduleToStartTimeout : Z)
    (directive : TaskVersionDirective)
    (priority : Priority)
    (transactionPolicy : TransactionPolicy)
  : M DispatchEvent (option error) :=
  r <- call_AddWorkflowTask
         (addWorkflowTaskRequest
            task taskqueue workflowTaskScheduleToStartTimeout
            directive priority) ;;
  let err := err_of r in
  (if isNotFound err
   then logError "Matching returned not found error for AddWorkflowTask" err
   else ret tt) ;;
  match r with
  | Err e => ret (Some e)
  | Ok resp =>
      match GetUseAssignmentRules directive with
      | None => ret None
      | Some _ =>
          initializeWorkflowAssignedBuildId
            task (AssignedBuildId resp) transactionPolicy
      end
  end.

(** The mutable-state updates in a trace. *)
Definition isUpdate (e : DispatchEvent) : bool :=
  match e with
  | EvUpdateIndependentActivityBuildId _ _ _ => true
  | EvInitializeWorkflowAssignedBuildId _ _ _ => true
  | _ => false
  end.

Definition updates (tr : list DispatchEvent) : list DispatchEvent :=
  List.filter isUpdate tr.

(** The request a trace's dispatch call carried. *)
Definition sentWorkflowTaskRequests (tr : list DispatchEvent)
  : list AddWorkflowTaskRequest :=
  flat_map (fun e => match e with
                     | EvAddWorkflowTask req => [req]
                     | _ => []
                     end) tr.

End Dispatcher.

(** ** Deleting a closed workflow execution *)

(** [definition.WorkflowKey] *)
Record WorkflowKey : Type := {
  wk_NamespaceID : string;
  wk_WorkflowID : string;
  wk_RunID : string;
}.

(** A [tasks.Task] as [deleteExecution] sees it through the interface:
    the getters, and the result of the type assertion to
    [tasks.HasVersion] ([None] when the task has no version at all). *)
Record Task : Type := {
  GetNamespaceID : string;
  GetWorkflowID : string;
  GetRunID : string;
  GetTaskID : Z;
  HasVersion : option Z;
}.

(** The reference task built by [isCloseExecutionTaskPending]. *)
Record CloseExecutionTask : Type := {
  cet_WorkflowKey : WorkflowKey;
  cet_TaskID : Z;
}.

Inductive Category : Type :=
| CategoryTransfer
| CategoryTimer
| CategoryReplication
| CategoryVisibility
| CategoryArchival
| CategoryOutbound.

(** [locks.Priority] *)
Inductive LockPriority : Type :=
| PriorityHigh
| PriorityLow.

(** Modelled from the spec: the persisted queue state and
    [queues.IsTaskAcked] are declared outside the sources read here.  The
    spec's data model gives a queue state an ack level and a set of acked
    exceptions, and calls a task acked iff its id is strictly below the
    ack level or is one of the exceptions. *)
Record QueueState : Type := {
  ackLevel : Z;
  ackedExceptions : gset Z;
}.

(** Modelled from the spec: [queues.IsTaskAcked], see [QueueState]. *)
Definition IsTaskAcked (task : CloseExecutionTask) (queueState : QueueState) : bool :=
  (cet_TaskID task <? ackLevel queueState)
  || bool_decide (cet_TaskID task ∈ ackedExceptions queueState).

Section Deletion.

(** Declared outside the executor and only passed on: the namespace
    entry, the workflow context returned by the cache (with its
    [GetWorkflowKey]), the archetype constant, the staged-progress
    marker, and the constant [common.EmptyVersion]. *)
Context {Namespace WorkflowContext Archetype Stage : Type}.
Variable GetWorkflowKey : WorkflowContext -> WorkflowKey.
Variable ArchetypeAny : Archetype.
Variable EmptyVersion : Z.

(** [historyi.MutableState] as read by [deleteExecution]. *)
Record MutableState : Type := {
  CloseTransferTaskId : Z;          (* GetExecutionInfo().CloseTransferTaskId *)
  GetCloseVersion : result Z;
  GetNamespaceEntry : Namespace;
}.

Inductive DeleteEvent : Type :=
| EvGetOrCreateChasmEntity
    (namespaceID : string) (execution : WorkflowExecution)
    (archetype : Archetype) (lockPriority : LockPriority)
| EvLoadMutableState (weCtx : WorkflowContext) (task : Task)
| EvGetQueueState (category : Category)
| EvDeleteWorkflowExecution
    (namespaceID : string) (execution : WorkflowExecution)
    (weCtx : WorkflowContext) (ms : MutableState) (stage : Stage)
| EvRelease (retError : option error)
| EvCancel.

(** [wcache.Cache]: on success the cache hands out the locked context
    together with its release callback; calling the callback is the
    event [EvRelease]. *)
Class Cache : Type := {
  GetOrCreateChasmEntity :
    string -> WorkflowExecution -> Archetype -> LockPriority ->
    result WorkflowContext;
}.

(** [historyi.ShardContext], the queue-state query: [(state, ok)]. *)
Class ShardContext : Type := {
  GetQueueState : Category -> option QueueState;
}.

(** The read path shared with ordinary task processing. *)
Class MutableStateLoader : Type := {
  loadMutableStateForTransferTask :
    WorkflowContext -> Task -> result MutableState;
}.

(** [deletemanager.DeleteManager] *)
Class DeleteManager : Type := {
  DeleteWorkflowExecution :
    string -> WorkflowExecution -> WorkflowContext -> MutableState -> Stage ->
    option error;
}.

Context {cache : Cache} {shardContext : ShardContext}
        {mutableStateLoader : MutableStateLoader}
        {workflowDeleteManager : DeleteManager}.

(** Modelled from the spec: [CheckTaskVersion] is declared outside the
    sources read here.  The spec's version consistency checker lets the
    sentinel "no version" pass and otherwise succeeds iff the task's
    version equals the authoritative version, failing with the
    version-conflict error on any mismatch. *)
Definition CheckTaskVersion
    (namespaceEntry : Namespace) (version taskVersion : Z) (task : Task)
  : option error :=
  if taskVersion =? EmptyVersion then None
  else if version =? taskVersion then None
  else Some ErrTaskVersionMismatch.

Definition call_GetOrCreateChasmEntity
    (namespaceID : string) (execution : WorkflowExecution)
    (archetype : Archetype) (lockPriority : LockPriority)
  : M DeleteEvent (result WorkflowContext) :=
  emit (EvGetOrCreateChasmEntity namespaceID execution archetype lockPriority) ;;
  ret (GetOrCreateChasmEntity namespaceID execution archetype lockPriority).

Definition call_loadMutableStateForTransferTask
    (weCtx : WorkflowContext) (task : Task)
  : M DeleteEvent (result MutableState) :=
  emit (EvLoadMutableState weCtx task) ;;
  ret (loadMutableStateForTransferTask weCtx task).

Definition call_GetQueueState (category : Category)
  : M DeleteEvent (option QueueState) :=
  emit (EvGetQueueState category) ;;
  ret (GetQueueState category).

Definition call_DeleteWorkflowExecution
    (namespaceID : string) (execution : WorkflowExecution)
    (weCtx : WorkflowContext) (ms : MutableState) (stage : Stage)
  : M DeleteEvent (option error) :=
  emit (EvDeleteWorkflowExecution namespaceID execution weCtx ms stage) ;;
  ret (DeleteWorkflowExecution namespaceID execution weCtx ms stage).

Definition isCloseExecutionTaskPending
    (ms : MutableState) (weCtx : WorkflowContext) : M DeleteEvent bool :=
  let closeTransferTaskId := CloseTransferTaskId ms in
  if closeTransferTaskId =? 0 then ret false
  else
    q <- call_GetQueueState CategoryTransfer ;;
    match q with
    | None => ret true
    | Some transferQueueState =>
        let fakeCloseTransferTask :=
          {| cet_WorkflowKey := GetWorkflowKey weCtx;
             cet_TaskID := closeTransferTaskId |} in
        ret (negb (IsTaskAcked fakeCloseTransferTask transferQueueState))
    end.

Definition deleteExecution
    (task : Task) (ensureNoPendingCloseTask : bool) (stage : Stage)
  : M DeleteEvent (option error) :=
  defer (fun _ => emit EvCancel) (
    let workflowExecution :=
      {| WorkflowId := GetWorkflowID task; RunId := GetRunID task |} in
    r <- call_GetOrCreateChasmEntity
           (GetNamespaceID task) workflowExecution ArchetypeAny PriorityLow ;;
    match r with
    | Err err => ret (Some err)
    | Ok weCtx =>
        defer (fun retError => emit (EvRelease retError)) (
          r <- call_loadMutableStateForTransferTask weCtx task ;;
          match r with
          | Err err => ret (Some err)
          | Ok mutableState =>
              pending <-
                (if ensureNoPendingCloseTask
                 then isCloseExecutionTaskPending mutableState weCtx
                 else ret false) ;;
              if pending then ret (Some ErrDependencyTaskNotCompleted)
              else
                let taskVersion :=
                  match HasVersion task with
                  | Some v => v
                  | None => EmptyVersion
                  end in
                match
                  (if negb (taskVersion =? EmptyVersion) then
                     match GetCloseVersion mutableState with
                     | Err err => Some err
                     | Ok closeVersion =>
                         CheckTaskVersion (GetNamespaceEntry mutableState)
                                          closeVersion taskVersion task
                     end
                   else None)
                with
                | Some err => ret (Some err)
                | None =>
                    call_DeleteWorkflowExecution
                      (GetNamespaceID task) workflowExecution
                      weCtx mutableState stage
                end
          end)
    end).

(** [processDeleteExecutionTask] passes the task's own stage marker. *)
Definition processDeleteExecutionTask
    (task : Task) (ProcessStage : Stage) (ensureNoPendingCloseTask : bool)
  : M DeleteEvent (option error) :=
  deleteExecution task ensureNoPendingCloseTask ProcessStage.

Definition isDelete (e : DeleteEvent) : bool :=
  match e with
  | EvDeleteWorkflowExecution _ _ _ _ _ => true
  | _ => false
  end.

(** How often the deletion primitive was invoked in a trace. *)
Definition deletions (tr : list DeleteEvent) : nat :=
  length (List.filter isDelete tr).

(** The arguments of the release callback's calls, in order. *)
Definition released (tr : list DeleteEvent) : list (option error) :=
  flat_map (fun e => match e with
                     | EvRelease retError => [retError]
                     | _ => []
                     end) tr.

End Deletion.

(** ** Version-sync fan-out of the worker-deployment activities *)

(** [cmp.Or(a, b)] on two [error] values: the first that is not [nil]. *)
Definition cmp_Or (a b : option error) : option error :=
  match a with
  | Some _ => a
  | None => b
  end.

Section VersionSync.

(** Declared in the generated API packages and only passed on. *)
Context {TaskQueueType DeploymentVersion Timestamp Percentage : Type}.

Record DeploymentVersionData : Type := {
  dvd_Version : option DeploymentVersion;
  dvd_RoutingUpdateTime : Timestamp;
  dvd_RampingSinceTime : Timestamp;
  dvd_RampPercentage : Percentage;
}.

(** [SyncDeploymentVersionUserDataRequest_SyncUserData] *)
Record SyncUserData : Type := {
  sud_Name : string;
  sud_Types : list TaskQueueType;
  sud_Data : option DeploymentVersionData;
}.

Inductive Operation : Type :=
| ForgetVersion (v : option DeploymentVersion)
| UpdateVersionData (d : option DeploymentVersionData).

Record SyncDeploymentUserDataRequest : Type := {
  sreq_NamespaceId : string;
  sreq_TaskQueue : string;
  sreq_TaskQueueTypes : list TaskQueueType;
  sreq_Operation : Operation;
}.

Record SyncDeploymentUserDataResponse : Type := {
  Version : Z;
}.

Record SyncDeploymentVersionUserDataResponse : Type := {
  TaskQueueMaxVersions : gmap string Z;
}.

Record SyncDeploymentVersionUserDataRequest : Type := {
  in_Version : option DeploymentVersion;
  in_Sync : list SyncUserData;
  in_ForgetVersion : bool;
}.

Record UpdateArgs : Type := {
  ua_RoutingUpdateTime : Timestamp;
  ua_RampingSinceTime : Timestamp;
  ua_RampPercentage : Percentage;
}.

Record SyncUnversionedRampActivityArgs : Type := {
  in_CurrentVersion : string;
  in_UpdateArgs : UpdateArgs;
}.

Record TaskQueueInfo : Type := {
  tqi_Name : string;
  tqi_Type : TaskQueueType;
}.

(** [a.namespace.ID().String()] *)
Variable namespaceID : string.

(** The matching client.  One activity run makes one call per
    goroutine; [SyncDeploymentUserData i req] is what the call of the
    [i]-th goroutine launched returns, so the answers may differ from
    call to call in any way. *)
Class MatchingClient : Type := {
  SyncDeploymentUserData :
    nat -> SyncDeploymentUserDataRequest ->
    result SyncDeploymentUserDataResponse;
}.

(** The deployment client: the task-queue infos of [DescribeVersion]. *)
Class DeploymentClient : Type := {
  DescribeVersion : string -> result (list TaskQueueInfo);
}.

Context {matchingClient : MatchingClient} {deploymentClient : DeploymentClient}.

(** Where a goroutine stands. *)
Inductive phase : Type :=
| Calling                                           (* in SyncDeploymentUserData *)
| Returned (r : result SyncDeploymentUserDataResponse)  (* res, err are set *)
| Sending (err : option error)                      (* blocked in errs <- err *)
| Exited.

Record goroutine : Type := {
  syncData : SyncUserData;
  at_phase : phase;
}.

(** Where the activity's own goroutine stands. *)
Inductive pc : Type :=
| Spawning (rest : list SyncUserData)      (* the loop of go statements *)
| Receiving (k : nat)                      (* k iterations of <-errs left *)
| Finished.                                (* after the receive loop *)

(** The shared variables; [received] is a history of the values taken
    from [errs], kept to state the order of arrival. *)
Record state : Type := {
  main : pc;
  goroutines : list goroutine;
  maxVersionByName : gmap string Z;
  err : option error;
  received : list (option error);
}.

Section Fanout.

(** The slice ranged over and the request each goroutine builds. *)
Variable taskQueueSyncs : list SyncUserData.
Variable request_of : SyncUserData -> SyncDeploymentUserDataRequest.

Definition init : state :=
  {| main := Spawning taskQueueSyncs;
     goroutines := [];
     maxVersionByName := ∅;
     err := None;
     received := [] |}.

(** One atomic action of one goroutine.  The map update happens
    under [lock], the channel is unbuffered: a send and its receive
    are one action. *)
Inductive step : state -> state -> Prop :=
| step_go e rest gs m er rcv :
    step {| main := Spawning (e :: rest); goroutines := gs;
            maxVersionByName := m; err := er; received := rcv |}
         {| main := Spawning rest;
            goroutines := gs ++ [{| syncData := e; at_phase := Calling |}];
            maxVersionByName := m; err := er; received := rcv |}
| step_launched gs m er rcv :
    step {| main := Spawning []; goroutines := gs;
            maxVersionByName := m; err := er; received := rcv |}
         {| main := Receiving (length taskQueueSyncs); goroutines := gs;
            maxVersionByName := m; err := er; received := rcv |}
| step_call i sd p gs m er rcv :
    gs !! i = Some {| syncData := sd; at_phase := Calling |} ->
    step {| main := p; goroutines := gs;
            maxVersionByName := m; err := er; received := rcv |}
         {| main := p;
            goroutines :=
              <[i := {| syncData := sd;
                        at_phase :=
                          Returned (SyncDeploymentUserData i (request_of sd)) |}]> gs;
            maxVersionByName := m; err := er; received := rcv |}
| step_failed i sd e p gs m er rcv :
    gs !! i = Some {| syncData := sd; at_phase := Returned (Err e) |} ->
    step {| main := p; goroutines := gs;
            maxVersionByName := m; err := er; received := rcv |}
         {| main := p;
            goroutines :=
              <[i := {| syncData := sd; at_phase := Sending (Some e) |}]> gs;
            maxVersionByName := m; err := er; received := rcv |}
| step_update i sd res p gs m er rcv :
    gs !! i = Some {| syncData := sd; at_phase := Returned (Ok res) |} ->
    step {| main := p; goroutines := gs;
            maxVersionByName := m; err := er; received := rcv |}
         {| main := p;
            goroutines :=
              <[i := {| syncData := sd; at_phase := Sending None |}]> gs;
            maxVersionByName :=
              <[sud_Name sd :=
                  Z.max (default 0 (m !! sud_Name sd)) (Version res)]> m;
            err := er; received := rcv |}
| step_receive i sd e k gs m er rcv :
    gs !! i = Some {| syncData := sd; at_phase := Sending e |} ->
    step {| main := Receiving (S k); goroutines := gs;
            maxVersionByName := m; err := er; received := rcv |}
         {| main := Receiving k;
            goroutines := <[i := {| syncData := sd; at_phase := Exited |}]> gs;
            maxVersionByName := m; err := cmp_Or er e;
            received := rcv ++ [e] |}
| step_received gs m er rcv :
    step {| main := Receiving 0; goroutines := gs;
            maxVersionByName := m; err := er; received := rcv |}
         {| main := Finished; goroutines := gs;
            maxVersionByName := m; err := er; received := rcv |}.

(** What the activity returns once the receive loop is over. *)
Definition outcome (s : state)
  : option SyncDeploymentVersionUserDataResponse * option error :=
  match err s with
  | Some e => (None, Some e)
  | None => (Some {| TaskQueueMaxVersions := maxVersionByName s |}, None)
  end.

(** A run of the fan-out from launch to return. *)
Definition fans_out
    (res : option SyncDeploymentVersionUserDataResponse * option error)
  : Prop :=
  exists s, rtc step init s /\ main s = Finished /\ res = outcome s.

(** What the [i]-th call returns. *)
Definition answer (i : nat) (sd : SyncUserData)
  : result SyncDeploymentUserDataResponse :=
  SyncDeploymentUserData i (request_of sd).

(** The [i]-th call is for task queue [name] and reports [v]. *)
Definition reports (name : string) (v : Z) : Prop :=
  exists i sd res,
    taskQueueSyncs !! i = Some sd /\ sud_Name sd = name /\
    answer i sd = Ok res /\ Version res = v.

(** Some call fails with [e]. *)
Definition fails_with (e : error) : Prop :=
  exists i sd, taskQueueSyncs !! i = Some sd /\ answer i sd = Err e.

(** *** The invariant of a run *)

(** [cmp.Or] folded over the values received so far. *)
Fixpoint first_error (l : list (option error)) : option error :=
  match l with
  | [] => None
  | Some e :: _ => Some e
  | None :: l' => first_error l'
  end.

Definition exited (g : goroutine) : bool :=
  match at_phase g with
  | Exited => true
  | _ => false
  end.

(** The goroutine is past its critical section. *)
Definition applied (g : goroutine) : bool :=
  match at_phase g with
  | Sending _ | Exited => true
  | _ => false
  end.

Definition exitedN (g : goroutine) : nat := if exited g then 1 else 0.

(** The actions a goroutine has left. *)
Definition weight (g : goroutine) : nat :=
  match at_phase g with
  | Calling => 3
  | Returned _ => 2
  | Sending _ => 1
  | Exited => 0
  end.

(** The actions a run has left. *)
Definition measure (s : state) : nat :=
  (match main s with
   | Spawning rest => 4 * length rest + length taskQueueSyncs + 2
   | Receiving k => k + 1
   | Finished => 0
   end + sum_list_with weight (goroutines s))%nat.

(** The [i]-th goroutine runs on the [i]-th element of the slice and
    holds what its call returned. *)
Definition goroutine_ok (i : nat) (g : goroutine) : Prop :=
  taskQueueSyncs !! i = Some (syncData g)
  /\ match at_phase g with
     | Calling => True
     | Returned r => r = answer i (syncData g)
     | Sending e => e = err_of (answer i (syncData g))
     | Exited => True
     end.

(** Goroutine [i] is past its critical section and got version [v] for
    [name]. *)
Definition got (name : string) (v : Z) (i : nat) (g : goroutine) : Prop :=
  applied g = true /\ sud_Name (syncData g) = name /\
  exists res, answer i (syncData g) = Ok res /\ Version res = v.

Definition contributes (gs : list goroutine) (name : string) (v : Z) : Prop :=
  exists i g, gs !! i = Some g /\ got name v i g.

(** Goroutine [i] has exited after its call failed with [e]. *)
Definition failed (e : error) (i : nat) (g : goroutine) : Prop :=
  exited g = true /\ answer i (syncData g) = Err e.

Definition delivered (gs : list goroutine) (e : error) : Prop :=
  exists i g, gs !! i = Some g /\ failed e i g.

(** [m] holds, for each name, the greatest version among [versions],
    not below Go's zero value for a missing entry. *)
Definition max_from_zero
    (versions : string -> Z -> Prop) (m : gmap string Z) : Prop :=
  forall name,
    match m !! name with
    | None => forall v, ~ versions name v
    | Some v =>
        (exists w, versions name w)
        /\ (forall w, versions name w -> w <= v)
        /\ 0 <= v
        /\ (v = 0 \/ versions name v)
    end.

(** [m] maps exactly the names with a reported version, each to the
    maximum version reported for it. *)
Definition max_versions
    (versions : string -> Z -> Prop) (m : gmap string Z) : Prop :=
  forall name,
    match m !! name with
    | None => forall v, ~ versions name v
    | Some v => versions name v /\ (forall w, versions name w -> w <= v)
    end.

(** The reduction of the calls' results to what the activity returns:
    an error iff some call failed, and then one of the calls' errors;
    otherwise the map of the greatest version reported per task queue
    (versions are counters, hence not negative). *)
Definition first_error_wins
    (res : option SyncDeploymentVersionUserDataResponse * option error)
  : Prop :=
  (res.2 <> None <-> exists e, fails_with e)
  /\ (forall e, res.2 = Some e -> fails_with e /\ res.1 = None)
  /\ ((forall e, ~ fails_with e) ->
      exists resp,
        res = (Some resp, None)
        /\ ((forall name v, reports name v -> 0 <= v) ->
            max_versions reports (TaskQueueMaxVersions resp))).

Record invariant (s : state) : Prop := {
  inv_goroutines :
    forall i g, goroutines s !! i = Some g -> goroutine_ok i g;
  inv_main :
    match main s with
    | Spawning rest =>
        taskQueueSyncs = (syncData <$> goroutines s) ++ rest
        /\ sum_list_with exitedN (goroutines s) = 0%nat
    | Receiving k =>
        length (goroutines s) = length taskQueueSyncs
        /\ (k + sum_list_with exitedN (goroutines s))%nat
           = length (goroutines s)
    | Finished =>
        length (goroutines s) = length taskQueueSyncs
        /\ sum_list_with exitedN (goroutines s) = length (goroutines s)
    end;
  inv_map :
    max_from_zero (contributes (goroutines s)) (maxVersionByName s);
  inv_err : err s = first_error (received s);
  inv_received :
    forall e, Some e ∈ received s <-> delivered (goroutines s) e;
}.

End Fanout.

Definition update_request (sd : SyncUserData) : SyncDeploymentUserDataRequest :=
  {| sreq_NamespaceId := namespaceID;
     sreq_TaskQueue := sud_Name sd;
     sreq_TaskQueueTypes := sud_Types sd;
     sreq_Operation := UpdateVersionData (sud_Data sd) |}.

Definition forget_request (version : option DeploymentVersion)
    (sd : SyncUserData) : SyncDeploymentUserDataRequest :=
  {| sreq_NamespaceId := namespaceID;
     sreq_TaskQueue := sud_Name sd;
     sreq_TaskQueueTypes := sud_Types sd;
     sreq_Operation := ForgetVersion version |}.

(** The slice [taskQueueSyncs] built by [SyncUnversionedRamp]. *)
Definition unversionedRampSyncs
    (input : SyncUnversionedRampActivityArgs) (infos : list TaskQueueInfo)
  : list SyncUserData :=
  let data :=
    {| dvd_Version := None;
       dvd_RoutingUpdateTime := ua_RoutingUpdateTime (in_UpdateArgs input);
       dvd_RampingSinceTime := ua_RampingSinceTime (in_UpdateArgs input);
       dvd_RampPercentage := ua_RampPercentage (in_UpdateArgs input) |} in
  List.map (fun tqInfo =>
              {| sud_Name := tqi_Name tqInfo;
                 sud_Types := [tqi_Type tqInfo];
                 sud_Data := Some data |}) infos.

Inductive SyncUnversionedRamp (input : SyncUnversionedRampActivityArgs)
  : option SyncDeploymentVersionUserDataResponse * option error -> Prop :=
| ramp_describe_failed e :
    DescribeVersion (in_CurrentVersion input) = Err e ->
    SyncUnversionedRamp input (None, Some e)
| ramp_synced infos res :
    DescribeVersion (in_CurrentVersion input) = Ok infos ->
    fans_out (unversionedRampSyncs input infos) update_request res ->
    SyncUnversionedRamp input res.

Definition SyncDeploymentVersionUserDataFromWorkerDeployment
    (input : SyncDeploymentVersionUserDataRequest)
    (res : option SyncDeploymentVersionUserDataResponse * option error)
  : Prop :=
  fans_out (in_Sync input)
           (fun syncData =>
              if in_ForgetVersion input
              then forget_request (in_Version input) syncData
              else update_request syncData)
           res.

End VersionSync.

(** ** Concrete scenarios *)

(** The end-to-end scenarios of the dispatcher: task id 42, a directive
    that is [true] when it asks for assignment rules, and a matching
    service that answers with build id "b1", with "not found", or with
    another failure. *)
Module Scenario.

Definition useAssignmentRules (directive : bool) : option unit :=
  if directive then Some tt else None.

Definition shard : ShardIdentity :=
  {| GetClusterID := 1; GetShardID := 7 |}.

Definition matching_b1 : @MatchingRawClient bool unit :=
  {| AddActivityTask := fun _ => Ok {| AssignedBuildId := "b1" |};
     AddWorkflowTask := fun _ => Ok {| AssignedBuildId := "b1" |} |}.

Definition matching_not_found : @MatchingRawClient bool unit :=
  {| AddActivityTask := fun _ => Err (NotFound "task queue gone");
     AddWorkflowTask := fun _ => Err (NotFound "task queue gone") |}.

Definition matching_unavailable : @MatchingRawClient bool unit :=
  {| AddActivityTask := fun _ => Err (OtherError "unavailable");
     AddWorkflowTask := fun _ => Err (OtherError "unavailable") |}.

Definition updater : @BuildIdUpdater unit :=
  {| updateIndependentActivityBuildId_result := fun _ _ _ => None;
     initializeWorkflowAssignedBuildId_result := fun _ _ _ => None |}.

Definition activity42 : ActivityTask :=
  {| at_NamespaceID := "ns1"; at_WorkflowID := "wf1"; at_RunID := "run1";
     at_TaskID := 42; at_TaskQueue := "tq"; at_ScheduledEventID := 5;
     at_Stamp := 0 |}.

Definition workflowTask42 : WorkflowTask :=
  {| wt_NamespaceID := "ns1"; wt_WorkflowID := "wf1"; wt_RunID := "run1";
     wt_TaskID := 42; wt_ScheduledEventID := 5 |}.

Definition queue : TaskQueue :=
  {| tq_Name := "tq"; tq_Kind := TASK_QUEUE_KIND_STICKY |}.

(** The deletion scenario: the workflow (ns1, wf1, run1) whose close
    task has transfer-task id 100, with shards whose transfer queue has
    ack level 50, has ack level 200, or has no state yet. *)
Definition workflowKeyOf (weCtx : WorkflowKey) : WorkflowKey := weCtx.

Definition cache : @Cache WorkflowKey unit :=
  {| GetOrCreateChasmEntity := fun namespaceID execution _ _ =>
       Ok {| wk_NamespaceID := namespaceID;
             wk_WorkflowID := WorkflowId execution;
             wk_RunID := RunId execution |} |}.

Definition cache_busy : @Cache WorkflowKey unit :=
  {| GetOrCreateChasmEntity := fun _ _ _ _ => Err (OtherError "lock busy") |}.

Definition queueState (level : Z) : ShardContext :=
  {| GetQueueState := fun category =>
       match category with
       | CategoryTransfer =>
           Some {| ackLevel := level; ackedExceptions := ∅ |}
       | _ => None
       end |}.

Definition noQueueState : ShardContext :=
  {| GetQueueState := fun _ => None |}.

Definition closed (closeTransferTaskId closeVersion : Z) : @MutableState unit :=
  {| CloseTransferTaskId := closeTransferTaskId;
     GetCloseVersion := Ok closeVersion;
     GetNamespaceEntry := tt |}.

Definition loader (ms : @MutableState unit)
  : @MutableStateLoader unit WorkflowKey :=
  {| loadMutableStateForTransferTask := fun _ _ => Ok ms |}.

Definition loader_failing : @MutableStateLoader unit WorkflowKey :=
  {| loadMutableStateForTransferTask := fun _ _ =>
       Err (OtherError "shard ownership lost") |}.

Definition deleter : @DeleteManager unit WorkflowKey nat :=
  {| DeleteWorkflowExecution := fun _ _ _ _ _ => None |}.

Definition deleteTask (version : option Z) : Task :=
  {| GetNamespaceID := "ns1"; GetWorkflowID := "wf1"; GetRunID := "run1";
     GetTaskID := 101; HasVersion := version |}.

Definition weCtx1 : WorkflowKey :=
  {| wk_NamespaceID := "ns1"; wk_WorkflowID := "wf1"; wk_RunID := "run1" |}.

(** The version-sync scenario: task queue "tq-a" is synced for two of
    its types; matching reports version 4 to the first call and 9 to
    the second. *)
Definition syncs : list (@SyncUserData bool string Z Z) :=
  [ {| sud_Name := "tq-a"; sud_Types := [true]; sud_Data := None |};
    {| sud_Name := "tq-a"; sud_Types := [false]; sud_Data := None |} ].

Definition matching_versions : @MatchingClient bool string Z Z :=
  {| SyncDeploymentUserData := fun i _ =>
       Ok {| Version := match i with O => 4 | _ => 9 end |} |}.

Definition syncInput : @SyncDeploymentVersionUserDataRequest bool string Z Z :=
  {| in_Version := None; in_Sync := syncs; in_ForgetVersion := false |}.

End Scenario.

(** * Further code of the same files *)

(** ** More about traces *)

Section DispatchTraces.

Context {TaskVersionDirective Priority TransactionPolicy : Type}.

(** The AddActivityTask requests of a trace, in order. *)
Definition sentActivityTaskRequests
    (tr : list (@DispatchEvent TaskVersionDirective Priority TransactionPolicy))
  : list AddActivityTaskRequest :=
  flat_map (fun e => match e with
                     | EvAddActivityTask req => [req]
                     | _ => []
                     end) tr.

(** The error-log lines of a trace, in order. *)
Definition logged
    (tr : list (@DispatchEvent TaskVersionDirective Priority TransactionPolicy))
  : list (string * option error) :=
  flat_map (fun e => match e with
                     | EvLogError msg err => [(msg, err)]
                     | _ => []
                     end) tr.

End DispatchTraces.

Section DeleteTraces.

Context {Namespace WorkflowContext Archetype Stage : Type}.

(** The categories whose queue state a trace asked for, in order. *)
Definition queueStateQueries
    (tr : list (@DeleteEvent Namespace WorkflowContext Archetype Stage))
  : list Category :=
  flat_map (fun e => match e with
                     | EvGetQueueState category => [category]
                     | _ => []
                     end) tr.

End DeleteTraces.

(** ** CheckUnversionedRampUserDataPropagation *)

Section PropagationCheck.

Record CheckTaskQueueUserDataPropagationRequest : Type := {
  creq_NamespaceId : string;
  creq_TaskQueue : string;
  creq_Version : Z;
}.

Record CheckWorkerDeploymentUserDataPropagationRequest : Type := {
  in_TaskQueueMaxVersions : gmap string Z;
}.

(** [a.namespace.ID().String()] *)
Variable namespaceID : string.

(** The matching client's propagation check; its response is dropped by
    the activity, so only the error is kept.  As for
    [SyncDeploymentUserData], the first argument tells the calls of one
    run apart. *)
Class PropagationClient : Type := {
  CheckTaskQueueUserDataPropagation :
    nat -> CheckTaskQueueUserDataPropagationRequest -> option error;
}.

Context {propagationClient : PropagationClient}.

(** Where a goroutine stands. *)
Inductive check_phase : Type :=
| Waiting                          (* in CheckTaskQueueUserDataPropagation *)
| Reporting (err : option error)   (* blocked in errs <- err *)
| Gone.

(** A goroutine with its arguments [name] and [version]. *)
Record checker : Type := {
  chk_name : string;
  chk_version : Z;
  chk_phase : check_phase;
}.

Inductive check_pc : Type :=
| Ranging (rest : list (string * Z))   (* the loop of go statements *)
| Collecting (k : nat)                 (* k iterations of <-errs left *)
| Returning.

Record check_state : Type := {
  chk_main : check_pc;
  checkers : list checker;
  chk_err : option error;
  chk_received : list (option error);
}.

Definition check_request (c : checker) : CheckTaskQueueUserDataPropagationRequest :=
  {| creq_NamespaceId := namespaceID;
     creq_TaskQueue := chk_name c;
     creq_Version := chk_version c |}.

Section CheckRun.

(** The entries of [input.TaskQueueMaxVersions] in the order in which
    the first [range] yields them. *)
Variable entries : list (string * Z).

Definition check_init : check_state :=
  {| chk_main := Ranging entries;
     checkers := [];
     chk_err := None;
     chk_received := [] |}.

Inductive check_step : check_state -> check_state -> Prop :=
| check_go n v rest cs er rcv :
    check_step {| chk_main := Ranging ((n, v) :: rest); checkers := cs;
                  chk_err := er; chk_received := rcv |}
               {| chk_main := Ranging rest;
                  checkers := cs ++ [{| chk_name := n; chk_version := v;
                                        chk_phase := Waiting |}];
                  chk_err := er; chk_received := rcv |}
| check_launched cs er rcv :
    check_step {| chk_main := Ranging []; checkers := cs;
                  chk_err := er; chk_received := rcv |}
               {| chk_main := Collecting (length entries); checkers := cs;
                  chk_err := er; chk_received := rcv |}
| check_call i n v p cs er rcv :
    cs !! i = Some {| chk_name := n; chk_version := v; chk_phase := Waiting |} ->
    check_step {| chk_main := p; checkers := cs;
                  chk_err := er; chk_received := rcv |}
               {| chk_main := p;
                  checkers :=
                    <[i := {| chk_name := n; chk_version := v;
                              chk_phase :=
                                Reporting
                                  (CheckTaskQueueUserDataPropagation i
                                     {| creq_NamespaceId := namespaceID;
                                        creq_TaskQueue := n;
                                        creq_Version := v |}) |}]> cs;
                  chk_err := er; chk_received := rcv |}
| check_receive i n v e k cs er rcv :
    cs !! i = Some {| chk_name := n; chk_version := v;
                      chk_phase := Reporting e |} ->
    check_step {| chk_main := Collecting (S k); checkers := cs;
                  chk_err := er; chk_received := rcv |}
               {| chk_main := Collecting k;
                  checkers := <[i := {| chk_name := n; chk_version := v;
                                        chk_phase := Gone |}]> cs;
                  chk_err := cmp_Or er e; chk_received := rcv ++ [e] |}
| check_received cs er rcv :
    check_step {| chk_main := Collecting 0; checkers := cs;
                  chk_err := er; chk_received := rcv |}
               {| chk_main := Returning; checkers := cs;
                  chk_err := er; chk_received := rcv |}.

(** The [i]-th call, for entry [(n, v)], fails with [e]. *)
Definition check_fails (e : error) : Prop :=
  exists i n v,
    entries !! i = Some (n, v)
    /\ CheckTaskQueueUserDataPropagation i
         {| creq_NamespaceId := namespaceID;
            creq_TaskQueue := n; creq_Version := v |} = Some e.

Definition goneN (c : checker) : nat :=
  match chk_phase c with
  | Gone => 1
  | _ => 0
  end.

Definition check_weight (c : checker) : nat :=
  match chk_phase c with
  | Waiting => 2
  | Reporting _ => 1
  | Gone => 0
  end.

Definition check_measure (s : check_state) : nat :=
  (match chk_main s with
   | Ranging rest => 3 * length rest + length entries + 2
   | Collecting k => k + 1
   | Returning => 0
   end + sum_list_with check_weight (checkers s))%nat.

(** Goroutine [i] has gone after its call failed with [e]. *)
Definition check_failed (e : error) (i : nat) (c : checker) : Prop :=
  chk_phase c = Gone
  /\ CheckTaskQueueUserDataPropagation i (check_request c) = Some e.

Record check_invariant (s : check_state) : Prop := {
  cinv_checkers :
    forall i c,
      checkers s !! i = Some c ->
      entries !! i = Some (chk_name c, chk_version c)
      /\ match chk_phase c with
         | Reporting e =>
             e = CheckTaskQueueUserDataPropagation i (check_request c)
         | _ => True
         end;
  cinv_main :
    match chk_main s with
    | Ranging rest =>
        entries = ((fun c => (chk_name c, chk_version c)) <$> checkers s) ++ rest
        /\ sum_list_with goneN (checkers s) = 0%nat
    | Collecting k =>
        length (checkers s) = length entries
        /\ (k + sum_list_with goneN (checkers s))%nat = length (checkers s)
    | Returning =>
        length (checkers s) = length entries
        /\ sum_list_with goneN (checkers s) = length (checkers s)
    end;
  cinv_err : chk_err s = first_error (chk_received s);
  cinv_received :
    forall e,
      Some e ∈ chk_received s
      <-> exists i c, checkers s !! i = Some c /\ check_failed e i c;
  cinv_count :
    length (chk_received s) = sum_list_with goneN (checkers s);
}.

End CheckRun.

(** The activity: the goroutines are launched in some order of the
    map's entries; the result is the error left in [err] when the
    receive loop is over. *)
Definition CheckUnversionedRampUserDataPropagation
    (input : CheckWorkerDeploymentUserDataPropagationRequest)
    (res : option error) : Prop :=
  exists entries s,
    entries ≡ₚ map_to_list (in_TaskQueueMaxVersions input)
    /\ rtc (check_step entries) (check_init entries) s
    /\ chk_main s = Returning
    /\ res = chk_err s.

End PropagationCheck.

(** ** The bulk indexer of the Elasticsearch client *)

(** [BulkableRequestType] is a [uint8]; its two constants come from
    [iota]. *)
Definition BulkableRequestTypeIndex : Z := 0.
Definition BulkableRequestTypeDelete : Z := 1.

Definition versionTypeExternal : string := "external".

Section BulkIndexer.

(** [io.ReadSeeker], the document body. *)
Context {Doc : Type}.

Record BulkIndexerRequest : Type := {
  bir_RequestType : Z;
  bir_Index : string;
  bir_ID : string;
  bir_Version : option Z;
  bir_Doc : option Doc;
}.

(** [esutil.BulkIndexerItem], the fields set here; a field left out of
    the literal has its zero value. *)
Record BulkIndexerItem : Type := {
  bii_Index : string;
  bii_Action : string;
  bii_DocumentID : string;
  bii_Version : option Z;
  bii_VersionType : string;
  bii_Body : option Doc;
}.

(** What [fmt.Errorf] is called with. *)
Inductive fmt_arg : Type :=
| ArgString (s : string)
| ArgInt (n : Z).

Inductive bulk_error : Type :=
| IndexerError (msg : string)                        (* from esutil *)
| Errorf (format : string) (args : list fmt_arg).    (* fmt.Errorf *)

(** [esutil.BulkIndexer] *)
Class EsBulkIndexer : Type := {
  es_Add : BulkIndexerItem -> option bulk_error;
  es_Close : option bulk_error;
}.

Context {es : EsBulkIndexer}.

Inductive BulkEvent : Type :=
| EvEsAdd (item : BulkIndexerItem)
| EvEsClose.

Definition bulkIndexerImpl_Add (request : BulkIndexerRequest)
  : M BulkEvent (option bulk_error) :=
  if bir_RequestType request =? BulkableRequestTypeIndex then
    let bulkIndexRequest :=
      {| bii_Index := bir_Index request;
         bii_Action := "index";
         bii_DocumentID := bir_ID request;
         bii_Version := bir_Version request;
         bii_VersionType := versionTypeExternal;
         bii_Body := bir_Doc request |} in
    emit (EvEsAdd bulkIndexRequest) ;;
    ret (es_Add bulkIndexRequest)
  else if bir_RequestType request =? BulkableRequestTypeDelete then
    let bulkDeleteRequest :=
      {| bii_Index := bir_Index request;
         bii_Action := "delete";
         bii_DocumentID := bir_ID request;
         bii_Version := bir_Version request;
         bii_VersionType := versionTypeExternal;
         bii_Body := None |} in
    emit (EvEsAdd bulkDeleteRequest) ;;
    ret (es_Add bulkDeleteRequest)
  else
    ret (Some (Errorf "unsupported request type: %v"
                      [ArgInt (bir_RequestType request)])).

Definition bulkIndexerImpl_Stop : M BulkEvent (option bulk_error) :=
  emit EvEsClose ;; ret es_Close.

(** The items a trace handed to the indexer, in order. *)
Definition added (tr : list BulkEvent) : list BulkIndexerItem :=
  flat_map (fun e => match e with
                     | EvEsAdd item => [item]
                     | EvEsClose => []
                     end) tr.

End BulkIndexer.

(** ** The persistence factory *)

(** The dynamic types the retry predicate tells apart. *)
Inductive persistence_error : Type :=
| Unavailable (msg : string)             (* serviceerror.Unavailable *)
| DataLoss (msg : string)                (* serviceerror.DataLoss *)
| ConditionFailedError (msg : string)    (* persistence.ConditionFailedError *)
| OtherPersistenceError (msg : string).

(** A type switch on [nil] takes no case. *)
Definition IsPersistenceTransientError (err : option persistence_error) : bool :=
  match err with
  | Some (Unavailable _) | Some (DataLoss _) => true
  | _ => false
  end.

Section Factory.

(** Declared in other packages and only passed on. *)
Context {RequestRateLimiter MetricsHandler HealthSignalAggregator : Type}.
Context {Store Serializer RetryPolicy Logger Config XDCCache : Type}.

Variable NoopMetricsHandler : MetricsHandler.
Variable NoopHealthSignalAggregator : HealthSignalAggregator.
Variable retryPolicy : RetryPolicy.
(** [serialization.NewSerializer()] *)
Variable NewSerializer : Serializer.

(** [persistence.DataStoreFactory], the constructors used below. *)
Class DataStoreFactory : Type := {
  NewTaskStore : result Store;
  NewQueueV2 : result Store;
}.

Record factoryImpl : Type := {
  dataStoreFactory : DataStoreFactory;
  config : Config;
  serializer : Serializer;
  eventBlobCache : XDCCache;
  metricsHandler : option MetricsHandler;
  logger : Logger;
  clusterName : string;
  systemRateLimiter : option RequestRateLimiter;
  namespaceRateLimiter : option RequestRateLimiter;
  shardRateLimiter : option RequestRateLimiter;
  healthSignals : option HealthSignalAggregator;
}.

(** The persistence objects the factory vends: a base object and the
    clients wrapped around it. *)
Inductive Manager : Type :=
| TaskManager (taskStore : Store) (serializer : Serializer)
| HistoryTaskQueueManager (queue : Store) (serializer : Serializer)
| RateLimitedClient
    (persistence : Manager)
    (systemRateLimiter namespaceRateLimiter : RequestRateLimiter)
    (shardRateLimiter : option RequestRateLimiter) (logger : Logger)
| MetricsClient
    (persistence : Manager) (metricsHandler : MetricsHandler)
    (healthSignals : HealthSignalAggregator) (logger : Logger)
| RetryableClient
    (persistence : Manager) (policy : RetryPolicy)
    (isRetryable : option persistence_error -> bool).

Inductive FactoryEvent : Type :=
| EvHealthSignalsStart (healthSignals : HealthSignalAggregator)
| EvHealthSignalsStop (healthSignals : HealthSignalAggregator)
| EvDataStoreFactoryClose.

Definition initDependencies (f : factoryImpl) : M FactoryEvent factoryImpl :=
  match metricsHandler f, healthSignals f with
  | None, None => ret f
  | _, _ =>
      let metricsHandler' :=
        match metricsHandler f with
        | None => NoopMetricsHandler
        | Some h => h
        end in
      let healthSignals' :=
        match healthSignals f with
        | None => NoopHealthSignalAggregator
        | Some h => h
        end in
      emit (EvHealthSignalsStart healthSignals') ;;
      ret {| dataStoreFactory := dataStoreFactory f;
             config := config f;
             serializer := serializer f;
             eventBlobCache := eventBlobCache f;
             metricsHandler := Some metricsHandler';
             logger := logger f;
             clusterName := clusterName f;
             systemRateLimiter := systemRateLimiter f;
             namespaceRateLimiter := namespaceRateLimiter f;
             shardRateLimiter := shardRateLimiter f;
             healthSignals := Some healthSignals' |}
  end.

Definition NewFactory
    (dataStoreFactory : DataStoreFactory)
    (cfg : Config)
    (systemRateLimiter namespaceRateLimiter shardRateLimiter :
       option RequestRateLimiter)
    (serializer : Serializer)
    (eventBlobCache : XDCCache)
    (clusterName : string)
    (metricsHandler : option MetricsHandler)
    (logger : Logger)
    (healthSignals : option HealthSignalAggregator)
  : M FactoryEvent factoryImpl :=
  let factory :=
    {| dataStoreFactory := dataStoreFactory;
       config := cfg;
       serializer := serializer;
       eventBlobCache := eventBlobCache;
       metricsHandler := metricsHandler;
       logger := logger;
       clusterName := clusterName;
       systemRateLimiter := systemRateLimiter;
       namespaceRateLimiter := namespaceRateLimiter;
       shardRateLimiter := shardRateLimiter;
       healthSignals := healthSignals |} in
  initDependencies factory.

Definition NewTaskManager (f : factoryImpl) : result Manager :=
  match NewTaskStore (DataStoreFactory := dataStoreFactory f) with
  | Err err => Err err
  | Ok taskStore =>
      let result := TaskManager taskStore (serializer f) in
      let result :=
        match systemRateLimiter f, namespaceRateLimiter f with
        | Some system, Some namespace =>
            RateLimitedClient result system namespace
                              (shardRateLimiter f) (logger f)
        | _, _ => result
        end in
      let result :=
        match metricsHandler f, healthSignals f with
        | Some handler, Some signals =>
            MetricsClient result handler signals (logger f)
        | _, _ => result
        end in
      let result :=
        RetryableClient result retryPolicy IsPersistenceTransientError in
      Ok result
  end.

Definition NewHistoryTaskQueueManager (f : factoryImpl) : result Manager :=
  match NewQueueV2 (DataStoreFactory := dataStoreFactory f) with
  | Err err => Err err
  | Ok q => Ok (HistoryTaskQueueManager q NewSerializer)
  end.

Definition factoryImpl_Close (f : factoryImpl) : M FactoryEvent unit :=
  emit EvDataStoreFactoryClose ;;
  match healthSignals f with
  | Some signals => emit (EvHealthSignalsStop signals)
  | None => ret tt
  end.

(** The clients wrapped around the base object, outermost first. *)
Inductive layer : Type :=
| Retryable
| Metrics
| RateLimited.

Fixpoint layers (m : Manager) : list layer :=
  match m with
  | RetryableClient p _ _ => Retryable :: layers p
  | MetricsClient p _ _ _ => Metrics :: layers p
  | RateLimitedClient p _ _ _ _ => RateLimited :: layers p
  | _ => []
  end.

Definition started (tr : list FactoryEvent) : list HealthSignalAggregator :=
  flat_map (fun e => match e with
                     | EvHealthSignalsStart h => [h]
                     | _ => []
                     end) tr.

Definition stopped (tr : list FactoryEvent) : list HealthSignalAggregator :=
  flat_map (fun e => match e with
                     | EvHealthSignalsStop h => [h]
                     | _ => []
                     end) tr.

End Factory.

(** ** The Elasticsearch client *)

(** What [fmt.Errorf] is called with; [%w] takes an error. *)
Inductive es_error : Type :=
| TransportError (msg : string)          (* from the transport *)
| JsonError (msg : string)               (* from encoding/json *)
| EsErrorf (format : string) (args : list es_arg)
with es_arg : Type :=
| EsString (s : string)
| EsInt (n : Z)
| EsWrapped (err : es_error).

(** The pair [(value, err)] of a call of the client's libraries. *)
Inductive es_result (A : Type) : Type :=
| EsOk (a : A)
| EsErr (err : es_error).
Arguments EsOk {A} a.
Arguments EsErr {A} err.

Section EsClient.

(** Values the client only passes on: a query and a sorter (JSON
    objects), a sort value, a point-in-time request, the encoded body of
    a request, and a decoded search result. *)
Context {Query Sorter SortValue PointInTime Encoded SearchResult : Type}.

(** The values put into a request body; the last is the object with
    the keys "id" and "keep_alive". *)
Inductive jvalue : Type :=
| JQuery (q : Query)
| JSorter (s : list Sorter)
| JBool (b : bool)
| JInt (n : Z)
| JString (s : string)
| JSearchAfter (l : list SortValue)
| JPointInTimeObject (id : PointInTime) (keep_alive : string).

(** [esapi.Response] as the client reads it. *)
Record Response : Type := {
  StatusCode : Z;
  IsError : bool;
  rsp_String : string;
}.

(** [esapi.SearchRequest], the fields the options below set. *)
Record SearchRequest : Type := {
  sr_Index : list string;
  sr_Body : option Encoded;
  sr_TrackTotalHits : option bool;
}.

Inductive EsRequest : Type :=
| IndicesExistsRequest (Index : list string)
| CountRequest (Index : list string) (Body : Encoded)
| Search_ (req : SearchRequest).

(** The transport and the JSON codec. *)
Class EsTransport : Type := {
  Do : EsRequest -> es_result Response;
  Encode : gmap string jvalue -> es_result Encoded;
  DecodeCount : Response -> es_result Z;
  DecodeSearchResult : Response -> es_result SearchResult;
}.

Context {transport : EsTransport}.

Inductive EsEvent : Type :=
| EvDo (req : EsRequest)
| EvBodyClose (res : Response).

Definition call_Do (req : EsRequest) : M EsEvent (es_result Response) :=
  emit (EvDo req) ;; ret (Do req).

Definition StatusOK : Z := 200.
Definition StatusNotFound : Z := 404.

Definition IndexExists (indexName : string)
  : M EsEvent (bool * option es_error) :=
  let req := IndicesExistsRequest [indexName] in
  r <- call_Do req ;;
  match r with
  | EsErr err =>
      ret (false,
           Some (EsErrorf "error checking if index %s exists: %w"
                          [EsString indexName; EsWrapped err]))
  | EsOk res =>
      defer (fun _ => emit (EvBodyClose res)) (
        if StatusCode res =? StatusOK then ret (true, None)
        else if StatusCode res =? StatusNotFound then ret (false, None)
        else
          ret (false,
               Some (EsErrorf
                       "unexpected status code when checking index %s: %d"
                       [EsString indexName; EsInt (StatusCode res)])))
  end.

Definition Count (index : string) (query : Query)
  : M EsEvent (Z * option es_error) :=
  match Encode {[ "query" := JQuery query ]} with
  | EsErr err =>
      ret (0, Some (EsErrorf "failed to encode query: %w" [EsWrapped err]))
  | EsOk buf =>
      let req := CountRequest [index] buf in
      r <- call_Do req ;;
      match r with
      | EsErr err => ret (0, Some err)
      | EsOk res =>
          if IsError res then
            ret (0,
                 Some (EsErrorf "error counting documents in index %s: %s"
                                [EsString index; EsString (rsp_String res)]))
          else
            defer (fun _ => emit (EvBodyClose res)) (
              match DecodeCount res with
              | EsErr err => ret (0, Some err)
              | EsOk count => ret (count, None)
              end)
      end
  end.

(** [SearchParametersNew], the fields [Search] reads. *)
Record SearchParametersNew : Type := {
  sp_Index : string;
  sp_Query : Query;
  sp_PageSize : Z;
  sp_Sorter : list Sorter;
  sp_SearchAfter : list SortValue;
  sp_PointInTime : option PointInTime;
}.

(** The functional options of [esapi.Search]. *)
Definition WithBody (b : Encoded) (r : SearchRequest) : SearchRequest :=
  {| sr_Index := sr_Index r; sr_Body := Some b;
     sr_TrackTotalHits := sr_TrackTotalHits r |}.

Definition WithTrackTotalHits (v : bool) (r : SearchRequest) : SearchRequest :=
  {| sr_Index := sr_Index r; sr_Body := sr_Body r;
     sr_TrackTotalHits := Some v |}.

Definition WithIndex (v : string) (r : SearchRequest) : SearchRequest :=
  {| sr_Index := [v]; sr_Body := sr_Body r;
     sr_TrackTotalHits := sr_TrackTotalHits r |}.

(** [esapi.Search] applies its options, in order, to an empty request;
    the context option is left out. *)
Definition apply_options (opts : list (SearchRequest -> SearchRequest))
  : SearchRequest :=
  fold_left (fun r f => f r) opts
            {| sr_Index := []; sr_Body := None; sr_TrackTotalHits := None |}.

(** The body [Search] builds. *)
Definition searchQuery (p : SearchParametersNew) : gmap string jvalue :=
  let query : gmap string jvalue :=
    {[ "query" := JQuery (sp_Query p);
       "sort" := JSorter (sp_Sorter p);
       "track_total_hits" := JBool false ]} in
  let query :=
    if negb (sp_PageSize p =? 0)
    then <["size" := JInt (sp_PageSize p)]> query
    else query in
  let query :=
    if (0 <? Z.of_nat (length (sp_SearchAfter p)))
    then <["search_after" := JSearchAfter (sp_SearchAfter p)]> query
    else query in
  match sp_PointInTime p with
  | Some pit =>
      <["point_in_time" := JPointInTimeObject pit "1m"]> query
  | None => query
  end.

Definition Search (p : SearchParametersNew)
  : M EsEvent (option SearchResult * option es_error) :=
  let query := searchQuery p in
  match Encode query with
  | EsErr err =>
      ret (None,
           Some (EsErrorf "error encoding search query: %w" [EsWrapped err]))
  | EsOk buf =>
      let opts := [WithBody buf; WithTrackTotalHits false] in
      let opts :=
        match sp_PointInTime p with
        | None => opts ++ [WithIndex (sp_Index p)]
        | Some _ => opts
        end in
      r <- call_Do (Search_ (apply_options opts)) ;;
      match r with
      | EsErr err => ret (None, Some err)
      | EsOk res =>
          defer (fun _ => emit (EvBodyClose res)) (
            if IsError res then
              ret (None,
                   Some (EsErrorf "ES search error: %s"
                                  [EsString (rsp_String res)]))
            else
              match DecodeSearchResult res with
              | EsErr err =>
                  ret (None,
                       Some (EsErrorf "error decoding search response: %w"
                                      [EsWrapped err]))
              | EsOk result => ret (Some result, None)
              end)
      end
  end.

(** The requests sent and the bodies closed in a trace. *)
Definition sent (tr : list EsEvent) : list EsRequest :=
  flat_map (fun e => match e with
                     | EvDo req => [req]
                     | _ => []
                     end) tr.

Definition closed_bodies (tr : list EsEvent) : list Response :=
  flat_map (fun e => match e with
                     | EvBodyClose res => [res]
                     | _ => []
                     end) tr.

End EsClient.

(** ** Further concrete cases *)

Module Cases.

(** A closed run whose close version cannot be read. *)
Definition closedUnreadable : @MutableState unit :=
  {| CloseTransferTaskId := 100;
     GetCloseVersion := Err (OtherError "close version not found");
     GetNamespaceEntry := tt |}.

(** A sync request without task queues, and deployment clients that
    know no task queue of the version, or fail. *)
Definition nothingToSync : @SyncDeploymentVersionUserDataRequest bool string Z Z :=
  {| in_Version := None; in_Sync := []; in_ForgetVersion := true |}.

Definition rampInput : @SyncUnversionedRampActivityArgs Z Z :=
  {| in_CurrentVersion := "v1";
     in_UpdateArgs := {| ua_RoutingUpdateTime := 0;
                         ua_RampingSinceTime := 0;
                         ua_RampPercentage := 50 |} |}.

Definition describe_nothing : @DeploymentClient bool :=
  {| DescribeVersion := fun _ => Ok [] |}.

Definition describe_failing : @DeploymentClient bool :=
  {| DescribeVersion := fun _ => Err (OtherError "version not found") |}.

(** Two moments of the version-sync scenario: after the first
    goroutine has recorded version 4, and after the second has recorded
    version 9. *)
Definition afterFirstUpdate : @state bool string Z Z :=
  {| main := Receiving 2;
     goroutines :=
       [ {| syncData := {| sud_Name := "tq-a"; sud_Types := [true];
                           sud_Data := None |};
            at_phase := Sending None |};
         {| syncData := {| sud_Name := "tq-a"; sud_Types := [false];
                           sud_Data := None |};
            at_phase := Calling |} ];
     maxVersionByName := {[ "tq-a" := 4 ]};
     err := None;
     received := [] |}.

Definition afterSecondUpdate : @state bool string Z Z :=
  {| main := Receiving 2;
     goroutines :=
       [ {| syncData := {| sud_Name := "tq-a"; sud_Types := [true];
                           sud_Data := None |};
            at_phase := Sending None |};
         {| syncData := {| sud_Name := "tq-a"; sud_Types := [false];
                           sud_Data := None |};
            at_phase := Sending None |} ];
     maxVersionByName :=
       <["tq-a" := Z.max (default 0 (({[ "tq-a" := 4 ]} : gmap string Z) !! "tq-a")) 9]>
         {[ "tq-a" := 4 ]};
     err := None;
     received := [] |}.

(** The propagation check of one task queue at version 9, against a
    matching service that times out and one that confirms. *)
Definition propagationInput : CheckWorkerDeploymentUserDataPropagationRequest :=
  {| in_TaskQueueMaxVersions := {[ "tq-a" := 9 ]} |}.

Definition noPropagationInput : CheckWorkerDeploymentUserDataPropagationRequest :=
  {| in_TaskQueueMaxVersions := ∅ |}.

Definition propagation_timeout : PropagationClient :=
  {| CheckTaskQueueUserDataPropagation := fun _ _ =>
       Some (OtherError "deadline exceeded") |}.

Definition propagation_done : PropagationClient :=
  {| CheckTaskQueueUserDataPropagation := fun _ _ => None |}.

(** A factory given a health-signal aggregator but no metrics handler,
    and only a system rate limiter. *)
Definition stores : @DataStoreFactory nat :=
  {| NewTaskStore := Ok 1%nat; NewQueueV2 := Ok 2%nat |}.

Definition halfConfigured :=
  NewFactory "noop-metrics" "noop-signals"
             stores tt (Some "system") None None tt tt "active"
             (@None string) tt (Some "signals").

(** An Elasticsearch that answers every request with status 500. *)
Definition failing : @Response :=
  {| StatusCode := 500; IsError := true; rsp_String := "[500] boom" |}.

Definition es_down : @EsTransport string string Z string unit string :=
  {| Do := fun _ => EsOk failing;
     Encode := fun _ => EsOk tt;
     DecodeCount := fun _ => EsOk 7;
     DecodeSearchResult := fun _ => EsOk "hits" |}.

(** A search of the second page inside a point in time. *)
Definition nextPage : @SearchParametersNew string string Z string :=
  {| sp_Index := "visibility"; sp_Query := "q"; sp_PageSize := 10;
     sp_Sorter := ["by-close-time"]; sp_SearchAfter := [17];
     sp_PointInTime := Some "pit-1" |}.

End Cases.

(** * Properties *)

(** ** The dispatcher *)

Lemma AsDuration_New (d : Z) : AsDuration (durationpb_New d) = d.
Proof. unfold AsDuration, durationpb_New. simpl. lia. Qed.

Lemma Nanos_New_range (d : Z) :
  0 <= d -> 0 <= Nanos (durationpb_New d) < 1000000000.
Proof.
  intros Hd. unfold durationpb_New. simpl.
  pose proof (Z.quot_rem' d 1000000000) as Hqr.
  pose proof (Z.rem_bound_pos d 1000000000 Hd ltac:(lia)) as Hb.
  lia.
Qed.

Section DispatcherFacts.

Context {TaskVersionDirective Priority TransactionPolicy Empty : Type}.
Variable GetUseAssignmentRules : TaskVersionDirective -> option Empty.
Context {matchingRawClient : @MatchingRawClient TaskVersionDirective Priority}
        {shardContext : ShardIdentity}
        {buildIdUpdater : @BuildIdUpdater TransactionPolicy}.

(** [pushActivity] when matching fails: the error comes back, after a
    log line if it is a not-found. *)
Lemma pushActivity_failed task timeout directive priority policy e :
  AddActivityTask (addActivityTaskRequest task timeout directive priority)
    = Err e ->
  run (pushActivity GetUseAssignmentRules task timeout directive priority policy)
  = (Some e,
     EvAddActivityTask (addActivityTaskRequest task timeout directive priority)
     :: (if isNotFound (Some e)
         then [EvLogError "Matching returned not found error for AddActivityTask"
                          (Some e)]
         else [])).
Proof.
  intros Hcall.
  unfold run, pushActivity, call_AddActivityTask, logError, bind, emit, ret.
  simpl. rewrite Hcall. simpl. destruct e; reflexivity.
Qed.

Lemma pushWorkflowTask_failed task tq timeout directive priority policy e :
  AddWorkflowTask (addWorkflowTaskRequest task tq timeout directive priority)
    = Err e ->
  run (pushWorkflowTask GetUseAssignmentRules task tq timeout directive priority policy)
  = (Some e,
     EvAddWorkflowTask (addWorkflowTaskRequest task tq timeout directive priority)
     :: (if isNotFound (Some e)
         then [EvLogError "Matching returned not found error for AddWorkflowTask"
                          (Some e)]
         else [])).
Proof.
  intros Hcall.
  unfold run, pushWorkflowTask, call_AddWorkflowTask, logError, bind, emit, ret.
  simpl. rewrite Hcall. simpl. destruct e; reflexivity.
Qed.

(** [pushActivity] when matching succeeds. *)
Lemma pushActivity_dispatched task timeout directive priority policy resp :
  AddActivityTask (addActivityTaskRequest task timeout directive priority)
    = Ok resp ->
  run (pushActivity GetUseAssignmentRules task timeout directive priority policy)
  = match GetUseAssignmentRules directive with
    | None =>
        (None,
         [EvAddActivityTask
            (addActivityTaskRequest task timeout directive priority)])
    | Some _ =>
        (updateIndependentActivityBuildId_result
           task (AssignedBuildId resp) policy,
         [EvAddActivityTask
            (addActivityTaskRequest task timeout directive priority);
          EvUpdateIndependentActivityBuildId
            task (AssignedBuildId resp) policy])
    end.
Proof.
  intros Hcall.
  unfold run, pushActivity, call_AddActivityTask, logError,
    updateIndependentActivityBuildId, bind, emit, ret.
  simpl. rewrite Hcall. simpl.
  destruct (GetUseAssignmentRules directive); reflexivity.
Qed.

Lemma pushWorkflowTask_dispatched task tq timeout directive priority policy resp :
  AddWorkflowTask (addWorkflowTaskRequest task tq timeout directive priority)
    = Ok resp ->
  run (pushWorkflowTask GetUseAssignmentRules task tq timeout directive priority policy)
  = match GetUseAssignmentRules directive with
    | None =>
        (None,
         [EvAddWorkflowTask
            (addWorkflowTaskRequest task tq timeout directive priority)])
    | Some _ =>
        (initializeWorkflowAssignedBuildId_result
           task (AssignedBuildId resp) policy,
         [EvAddWorkflowTask
            (addWorkflowTaskRequest task tq timeout directive priority);
          EvInitializeWorkflowAssignedBuildId
            task (AssignedBuildId resp) policy])
    end.
Proof.
  intros Hcall.
  unfold run, pushWorkflowTask, call_AddWorkflowTask, logError,
    initializeWorkflowAssignedBuildId, bind, emit, ret.
  simpl. rewrite Hcall. simpl.
  destruct (GetUseAssignmentRules directive); reflexivity.
Qed.

End DispatcherFacts.

Section DispatcherClaims.

Context {TaskVersionDirective Priority TransactionPolicy Empty : Type}.
Variable GetUseAssignmentRules : TaskVersionDirective -> option Empty.
Context {matchingRawClient : @MatchingRawClient TaskVersionDirective Priority}
        {shardContext : ShardIdentity}
        {buildIdUpdater : @BuildIdUpdater TransactionPolicy}.

(** C2, as amended.  When matching answers "not found" to
    AddActivityTask or AddWorkflowTask, the dispatcher makes the call
    once, logs the error, makes no mutable-state update, and returns
    that same not-found error to its caller; an error that is not a
    not-found is returned as well, without the log line. *)
Theorem push_not_found_logged_and_returned :
  (forall task timeout directive priority policy msg,
      AddActivityTask (addActivityTaskRequest task timeout directive priority)
        = Err (NotFound msg) ->
      run (pushActivity GetUseAssignmentRules
             task timeout directive priority policy)
      = (Some (NotFound msg),
         [EvAddActivityTask
            (addActivityTaskRequest task timeout directive priority);
          EvLogError "Matching returned not found error for AddActivityTask"
                     (Some (NotFound msg))]))
  /\ (forall task tq timeout directive priority policy msg,
      AddWorkflowTask (addWorkflowTaskRequest task tq timeout directive priority)
        = Err (NotFound msg) ->
      run (pushWorkflowTask GetUseAssignmentRules
             task tq timeout directive priority policy)
      = (Some (NotFound msg),
         [EvAddWorkflowTask
            (addWorkflowTaskRequest task tq timeout directive priority);
          EvLogError "Matching returned not found error for AddWorkflowTask"
                     (Some (NotFound msg))]))
  /\ (forall task timeout directive priority policy e,
      AddActivityTask (addActivityTaskRequest task timeout directive priority)
        = Err e ->
      isNotFound (Some e) = false ->
      run (pushActivity GetUseAssignmentRules
             task timeout directive priority policy)
      = (Some e,
         [EvAddActivityTask
            (addActivityTaskRequest task timeout directive priority)]))
  /\ (forall task tq timeout directive priority policy e,
      AddWorkflowTask (addWorkflowTaskRequest task tq timeout directive priority)
        = Err e ->
      isNotFound (Some e) = false ->
      run (pushWorkflowTask GetUseAssignmentRules
             task tq timeout directive priority policy)
      = (Some e,
         [EvAddWorkflowTask
            (addWorkflowTaskRequest task tq timeout directive priority)])).
Proof.
  repeat split.
  - intros * Hcall.
    now rewrite (pushActivity_failed _ _ _ _ _ _ _ Hcall).
  - intros * Hcall.
    now rewrite (pushWorkflowTask_failed _ _ _ _ _ _ _ _ Hcall).
  - intros * Hcall Hnf.
    rewrite (pushActivity_failed _ _ _ _ _ _ _ Hcall). now rewrite Hnf.
  - intros * Hcall Hnf.
    rewrite (pushWorkflowTask_failed _ _ _ _ _ _ _ _ Hcall). now rewrite Hnf.
Qed.

(** C4.  After a successful dispatch call: a directive whose
    GetUseAssignmentRules is nil leads to no mutable-state update and
    to a nil result; a directive that asks for assignment rules leads
    to exactly one update, carrying the build id of the response, which
    is the independent-activity update for an activity task and the
    workflow's assigned-build-id initialisation for a workflow task. *)
Theorem push_build_id_propagation :
  (forall task timeout directive priority policy resp,
      AddActivityTask (addActivityTaskRequest task timeout directive priority)
        = Ok resp ->
      let out := run (pushActivity GetUseAssignmentRules
                        task timeout directive priority policy) in
      (GetUseAssignmentRules directive = None ->
       updates out.2 = [] /\ out.1 = None)
      /\ (GetUseAssignmentRules directive <> None ->
          updates out.2
          = [EvUpdateIndependentActivityBuildId
               task (AssignedBuildId resp) policy]
          /\ out.1 = updateIndependentActivityBuildId_result
                       task (AssignedBuildId resp) policy))
  /\ (forall task tq timeout directive priority policy resp,
      AddWorkflowTask (addWorkflowTaskRequest task tq timeout directive priority)
        = Ok resp ->
      let out := run (pushWorkflowTask GetUseAssignmentRules
                        task tq timeout directive priority policy) in
      (GetUseAssignmentRules directive = None ->
       updates out.2 = [] /\ out.1 = None)
      /\ (GetUseAssignmentRules directive <> None ->
          updates out.2
          = [EvInitializeWorkflowAssignedBuildId
               task (AssignedBuildId resp) policy]
          /\ out.1 = initializeWorkflowAssignedBuildId_result
                       task (AssignedBuildId resp) policy)).
Proof.
  split.
  - intros * Hcall out. subst out.
    rewrite (pushActivity_dispatched _ _ _ _ _ _ _ Hcall).
    destruct (GetUseAssignmentRules directive); split; intros Hd;
      try discriminate; try (now destruct Hd); now split.
  - intros * Hcall out. subst out.
    rewrite (pushWorkflowTask_dispatched _ _ _ _ _ _ _ _ Hcall).
    destruct (GetUseAssignmentRules directive); split; intros Hd;
      try discriminate; try (now destruct Hd); now split.
Qed.

(** C7.  The AddWorkflowTask request that [pushWorkflowTask] sends has
    a nil ScheduleToStartTimeout exactly when the timeout given is not
    strictly positive; for a positive timeout the field holds that
    duration. *)
Theorem pushWorkflowTask_schedule_to_start_timeout
    task tq timeout directive priority policy :
  let req := addWorkflowTaskRequest task tq timeout directive priority in
  sentWorkflowTaskRequests
    (run (pushWorkflowTask GetUseAssignmentRules
            task tq timeout directive priority policy)).2 = [req]
  /\ (awt_ScheduleToStartTimeout req = None <-> timeout <= 0)
  /\ (0 < timeout ->
      exists d, awt_ScheduleToStartTimeout req = Some d
                /\ AsDuration d = timeout
                /\ 0 <= Nanos d < 1000000000).
Proof.
  intros req. split; [|split].
  - destruct (AddWorkflowTask req) as [resp|e] eqn:Hcall; subst req.
    + rewrite (pushWorkflowTask_dispatched _ _ _ _ _ _ _ _ Hcall).
      now destruct (GetUseAssignmentRules directive).
    + rewrite (pushWorkflowTask_failed _ _ _ _ _ _ _ _ Hcall).
      now destruct (isNotFound (Some e)).
  - subst req. unfold addWorkflowTaskRequest. simpl.
    destruct (Z.ltb_spec 0 timeout); split; intros; try lia; try easy.
  - intros Hpos. exists (durationpb_New timeout). subst req.
    unfold addWorkflowTaskRequest. simpl.
    destruct (Z.ltb_spec 0 timeout); [|lia].
    split; [reflexivity|]. split; [apply AsDuration_New|].
    apply Nanos_New_range. lia.
Qed.

(** C10.  When the dispatch call returns an error, [pushActivity] and
    [pushWorkflowTask] return that error and the trace holds no
    mutable-state update, whatever the directive asks for. *)
Theorem push_failed_dispatch_leaves_mutable_state :
  (forall task timeout directive priority policy e,
      AddActivityTask (addActivityTaskRequest task timeout directive priority)
        = Err e ->
      let out := run (pushActivity GetUseAssignmentRules
                        task timeout directive priority policy) in
      out.1 = Some e /\ updates out.2 = [])
  /\ (forall task tq timeout directive priority policy e,
      AddWorkflowTask (addWorkflowTaskRequest task tq timeout directive priority)
        = Err e ->
      let out := run (pushWorkflowTask GetUseAssignmentRules
                        task tq timeout directive priority policy) in
      out.1 = Some e /\ updates out.2 = []).
Proof.
  split.
  - intros * Hcall out. subst out.
    rewrite (pushActivity_failed _ _ _ _ _ _ _ Hcall).
    now destruct (isNotFound (Some e)).
  - intros * Hcall out. subst out.
    rewrite (pushWorkflowTask_failed _ _ _ _ _ _ _ _ Hcall).
    now destruct (isNotFound (Some e)).
Qed.

End DispatcherClaims.

(** C2, as stated, fails: with a matching service that answers "not
    found", [pushActivity] and [pushWorkflowTask] do not return nil;
    they return the not-found error. *)
Lemma push_not_found_is_not_success :
  AddActivityTask (MatchingRawClient := Scenario.matching_not_found)
    (addActivityTaskRequest (shardContext := Scenario.shard)
       Scenario.activity42 10000000000 false tt)
  = Err (NotFound "task queue gone")
  /\ (run (pushActivity Scenario.useAssignmentRules
             (matchingRawClient := Scenario.matching_not_found) (shardContext := Scenario.shard)
             (buildIdUpdater := Scenario.updater)
             Scenario.activity42 10000000000 false tt tt)).1
     = Some (NotFound "task queue gone")
  /\ (run (pushWorkflowTask Scenario.useAssignmentRules
             (matchingRawClient := Scenario.matching_not_found) (shardContext := Scenario.shard)
             (buildIdUpdater := Scenario.updater)
             Scenario.workflowTask42 Scenario.queue 0 false tt tt)).1
     <> None.
Proof. repeat split. discriminate. Qed.

Lemma push_not_found_logged_and_returned_witness :
  (AddActivityTask (MatchingRawClient := Scenario.matching_not_found)
     (addActivityTaskRequest (shardContext := Scenario.shard)
        Scenario.activity42 10000000000 true tt)
   = Err (NotFound "task queue gone")
   /\ run (pushActivity Scenario.useAssignmentRules
             (matchingRawClient := Scenario.matching_not_found)
             (shardContext := Scenario.shard)
             (buildIdUpdater := Scenario.updater)
             Scenario.activity42 10000000000 true tt tt)
      = (Some (NotFound "task queue gone"),
         [EvAddActivityTask
            (addActivityTaskRequest (shardContext := Scenario.shard)
               Scenario.activity42 10000000000 true tt);
          EvLogError "Matching returned not found error for AddActivityTask"
                     (Some (NotFound "task queue gone"))]))
  /\ (AddWorkflowTask (MatchingRawClient := Scenario.matching_unavailable)
        (addWorkflowTaskRequest (shardContext := Scenario.shard)
           Scenario.workflowTask42 Scenario.queue 0 true tt)
      = Err (OtherError "unavailable")
      /\ isNotFound (Some (OtherError "unavailable")) = false
      /\ run (pushWorkflowTask Scenario.useAssignmentRules
                (matchingRawClient := Scenario.matching_unavailable)
                (shardContext := Scenario.shard)
                (buildIdUpdater := Scenario.updater)
                Scenario.workflowTask42 Scenario.queue 0 true tt tt)
         = (Some (OtherError "unavailable"),
            [EvAddWorkflowTask
               (addWorkflowTaskRequest (shardContext := Scenario.shard)
                  Scenario.workflowTask42 Scenario.queue 0 true tt)])).
Proof.
  pose proof (@push_not_found_logged_and_returned bool unit unit unit
                Scenario.useAssignmentRules Scenario.matching_not_found
                Scenario.shard Scenario.updater) as [Hact _].
  pose proof (@push_not_found_logged_and_returned bool unit unit unit
                Scenario.useAssignmentRules Scenario.matching_unavailable
                Scenario.shard Scenario.updater) as (_ & _ & _ & Hwf).
  split; [split; [reflexivity|]|split; [reflexivity|split; [reflexivity|]]].
  - apply Hact. reflexivity.
  - apply Hwf; reflexivity.
Defined.

(** Scenarios A and B of the dispatcher. *)
Lemma push_build_id_propagation_witness :
  (let out := run (pushActivity Scenario.useAssignmentRules
                     (matchingRawClient := Scenario.matching_b1)
                     (shardContext := Scenario.shard)
                     (buildIdUpdater := Scenario.updater)
                     Scenario.activity42 10000000000 false tt tt) in
   updates out.2 = [] /\ out.1 = None)
  /\ (let out := run (pushWorkflowTask Scenario.useAssignmentRules
                        (matchingRawClient := Scenario.matching_b1)
                        (shardContext := Scenario.shard)
                        (buildIdUpdater := Scenario.updater)
                        Scenario.workflowTask42 Scenario.queue 0 true tt tt) in
      updates out.2
      = [EvInitializeWorkflowAssignedBuildId Scenario.workflowTask42 "b1" tt]
      /\ out.1 = None).
Proof.
  pose proof (@push_build_id_propagation bool unit unit unit
                Scenario.useAssignmentRules Scenario.matching_b1
                Scenario.shard Scenario.updater) as [Hact Hwf].
  split.
  - apply (Hact Scenario.activity42 10000000000 false tt tt
                {| AssignedBuildId := "b1" |} eq_refl).
    reflexivity.
  - apply (Hwf Scenario.workflowTask42 Scenario.queue 0 true tt tt
               {| AssignedBuildId := "b1" |} eq_refl).
    discriminate.
Defined.

Lemma pushWorkflowTask_schedule_to_start_timeout_witness :
  awt_ScheduleToStartTimeout
    (addWorkflowTaskRequest (shardContext := Scenario.shard)
       Scenario.workflowTask42 Scenario.queue 0 true tt) = None
  /\ exists d,
      awt_ScheduleToStartTimeout
        (addWorkflowTaskRequest (shardContext := Scenario.shard)
           Scenario.workflowTask42 Scenario.queue 2500000000 true tt) = Some d
      /\ AsDuration d = 2500000000
      /\ 0 <= Nanos d < 1000000000.
Proof.
  split.
  - apply (@pushWorkflowTask_schedule_to_start_timeout bool unit unit unit
             Scenario.useAssignmentRules Scenario.matching_b1
             Scenario.shard Scenario.updater
             Scenario.workflowTask42 Scenario.queue 0 true tt tt).
    lia.
  - apply (@pushWorkflowTask_schedule_to_start_timeout bool unit unit unit
             Scenario.useAssignmentRules Scenario.matching_b1
             Scenario.shard Scenario.updater
             Scenario.workflowTask42 Scenario.queue 2500000000 true tt tt).
    lia.
Defined.

Lemma push_failed_dispatch_leaves_mutable_state_witness :
  (let out := run (pushActivity Scenario.useAssignmentRules
                     (matchingRawClient := Scenario.matching_unavailable)
                     (shardContext := Scenario.shard)
                     (buildIdUpdater := Scenario.updater)
                     Scenario.activity42 10000000000 true tt tt) in
   out.1 = Some (OtherError "unavailable") /\ updates out.2 = [])
  /\ (let out := run (pushWorkflowTask Scenario.useAssignmentRules
                        (matchingRawClient := Scenario.matching_not_found)
                        (shardContext := Scenario.shard)
                        (buildIdUpdater := Scenario.updater)
                        Scenario.workflowTask42 Scenario.queue 0 true tt tt) in
      out.1 = Some (NotFound "task queue gone") /\ updates out.2 = []).
Proof.
  split.
  - apply (proj1 (@push_failed_dispatch_leaves_mutable_state bool unit unit unit
                    Scenario.useAssignmentRules Scenario.matching_unavailable
                    Scenario.shard Scenario.updater)).
    reflexivity.
  - apply (proj2 (@push_failed_dispatch_leaves_mutable_state bool unit unit unit
                    Scenario.useAssignmentRules Scenario.matching_not_found
                    Scenario.shard Scenario.updater)).
    reflexivity.
Defined.

(** ** The deletion coordinator *)

Section DeletionFacts.

Context {Namespace WorkflowContext Archetype Stage : Type}.
Variable GetWorkflowKey : WorkflowContext -> WorkflowKey.
Variable ArchetypeAny : Archetype.
Variable EmptyVersion : Z.
Context {cache : @Cache WorkflowContext Archetype}
        {shardContext : ShardContext}
        {mutableStateLoader : @MutableStateLoader Namespace WorkflowContext}
        {workflowDeleteManager : @DeleteManager Namespace WorkflowContext Stage}.

Local Abbreviation closePending :=
  (@isCloseExecutionTaskPending Namespace WorkflowContext Archetype Stage
     GetWorkflowKey shardContext).

(** The guard appends at most the queue-state query to the trace it is
    given, and its answer does not depend on that trace. *)
Lemma isCloseExecutionTaskPending_run (ms : @MutableState Namespace) weCtx tr :
  closePending ms weCtx tr
  = ((run (closePending ms weCtx)).1,
     tr ++ (run (closePending ms weCtx)).2).
Proof.
  unfold run, isCloseExecutionTaskPending, call_GetQueueState, bind, emit, ret.
  destruct (CloseTransferTaskId ms =? 0); simpl.
  - now rewrite app_nil_r.
  - now destruct (GetQueueState CategoryTransfer).
Qed.

Lemma isCloseExecutionTaskPending_trace (ms : @MutableState Namespace) weCtx :
  List.filter isDelete (run (closePending ms weCtx)).2 = []
  /\ released (run (closePending ms weCtx)).2 = [].
Proof.
  unfold run, isCloseExecutionTaskPending, call_GetQueueState, bind, emit, ret.
  destruct (CloseTransferTaskId ms =? 0); simpl; [easy|].
  now destruct (GetQueueState CategoryTransfer).
Qed.

(** The guard with a close task that is not acked, or with no queue
    state at all. *)
Lemma isCloseExecutionTaskPending_pending (ms : @MutableState Namespace) weCtx :
  CloseTransferTaskId ms <> 0 ->
  match GetQueueState CategoryTransfer with
  | None => True
  | Some qs =>
      ackLevel qs <= CloseTransferTaskId ms
      /\ CloseTransferTaskId ms ∉ ackedExceptions qs
  end ->
  (run (closePending ms weCtx)).1 = true.
Proof.
  intros Hid Hqs.
  unfold run, isCloseExecutionTaskPending, call_GetQueueState, bind, emit, ret.
  destruct (Z.eqb_spec (CloseTransferTaskId ms) 0) as [|_]; [contradiction|].
  simpl. destruct (GetQueueState CategoryTransfer) as [qs|]; [|reflexivity].
  destruct Hqs as [Hlevel Hexc]. simpl. unfold IsTaskAcked. simpl.
  destruct (Z.ltb_spec (CloseTransferTaskId ms) (ackLevel qs)); [lia|].
  now rewrite bool_decide_eq_false_2.
Qed.

(** [deleteExecution] up to the guard, in terms of what the guard says
    and of what the rest of the function does. *)
Lemma deleteExecution_loaded task (ensure : bool) stage weCtx ms :
  GetOrCreateChasmEntity
    (GetNamespaceID task)
    {| WorkflowId := GetWorkflowID task; RunId := GetRunID task |}
    ArchetypeAny PriorityLow = Ok weCtx ->
  loadMutableStateForTransferTask weCtx task = Ok ms ->
  let guarded :=
    if ensure then run (closePending ms weCtx)
    else (false, []) in
  let taskVersion := default EmptyVersion (HasVersion task) in
  let rest :=
    if guarded.1 then (Some ErrDependencyTaskNotCompleted, [])
    else
      match (if negb (taskVersion =? EmptyVersion) then
               match GetCloseVersion ms with
               | Err err => Some err
               | Ok closeVersion =>
                   CheckTaskVersion EmptyVersion (GetNamespaceEntry ms)
                                    closeVersion taskVersion task
               end
             else None)
      with
      | Some err => (Some err, [])
      | None =>
          (DeleteWorkflowExecution
             (GetNamespaceID task)
             {| WorkflowId := GetWorkflowID task; RunId := GetRunID task |}
             weCtx ms stage,
           [EvDeleteWorkflowExecution
              (GetNamespaceID task)
              {| WorkflowId := GetWorkflowID task; RunId := GetRunID task |}
              weCtx ms stage])
      end in
  run (deleteExecution GetWorkflowKey ArchetypeAny EmptyVersion
         task ensure stage)
  = (rest.1,
     [EvGetOrCreateChasmEntity
        (GetNamespaceID task)
        {| WorkflowId := GetWorkflowID task; RunId := GetRunID task |}
        ArchetypeAny PriorityLow;
      EvLoadMutableState weCtx task]
     ++ guarded.2 ++ rest.2 ++ [EvRelease rest.1; EvCancel]).
Proof.
  intros Hlock Hload guarded taskVersion rest. subst guarded taskVersion rest.
  unfold run at 1.
  unfold deleteExecution, defer, call_GetOrCreateChasmEntity,
    call_loadMutableStateForTransferTask, call_DeleteWorkflowExecution,
    bind, emit, ret.
  simpl. rewrite Hlock. rewrite Hload.
  destruct ensure.
  - rewrite isCloseExecutionTaskPending_run.
    destruct (run (closePending ms weCtx))
      as [pending gtr].
    simpl. destruct pending; simpl.
    + now rewrite <- !app_assoc.
    + destruct (HasVersion task) as [v|]; simpl;
        repeat match goal with
          | |- context [negb (?a =? ?b)] => destruct (a =? b); simpl
          | |- context [GetCloseVersion ms] => destruct (GetCloseVersion ms); simpl
          | |- context [CheckTaskVersion ?e ?n ?c ?v ?t] =>
              destruct (CheckTaskVersion e n c v t); simpl
          end;
        now rewrite <- ?app_assoc.
  - simpl.
    destruct (HasVersion task) as [v|]; simpl;
      repeat match goal with
        | |- context [negb (?a =? ?b)] => destruct (a =? b); simpl
        | |- context [GetCloseVersion ms] => destruct (GetCloseVersion ms); simpl
        | |- context [CheckTaskVersion ?e ?n ?c ?v ?t] =>
            destruct (CheckTaskVersion e n c v t); simpl
        end;
      reflexivity.
Qed.

End DeletionFacts.

Section DeletionClaims.

Context {Namespace WorkflowContext Archetype Stage : Type}.
Variable GetWorkflowKey : WorkflowContext -> WorkflowKey.
Variable ArchetypeAny : Archetype.
Variable EmptyVersion : Z.
Context {cache : @Cache WorkflowContext Archetype}
        {mutableStateLoader : @MutableStateLoader Namespace WorkflowContext}
        {workflowDeleteManager : @DeleteManager Namespace WorkflowContext Stage}.

(** The lock is asked for with the task's workflow key, for any
    archetype, at low priority. *)
Local Abbreviation locked task weCtx :=
  (GetOrCreateChasmEntity
     (GetNamespaceID task)
     {| WorkflowId := GetWorkflowID task; RunId := GetRunID task |}
     ArchetypeAny PriorityLow = Ok weCtx).

Local Abbreviation deleted task weCtx ms stage :=
  (DeleteWorkflowExecution
     (GetNamespaceID task)
     {| WorkflowId := GetWorkflowID task; RunId := GetRunID task |}
     weCtx ms stage).

(** C1.  With the guard enabled, a loaded mutable state whose
    CloseTransferTaskId is T <> 0, and a transfer queue state with ack
    level <= T and T not among the acked exceptions, [deleteExecution]
    returns ErrDependencyTaskNotCompleted and the deletion primitive is
    not invoked. *)
Theorem deleteExecution_close_task_not_acked
    {shardContext : ShardContext} task stage weCtx ms qs T :
  locked task weCtx ->
  loadMutableStateForTransferTask weCtx task = Ok ms ->
  CloseTransferTaskId ms = T ->
  T <> 0 ->
  GetQueueState CategoryTransfer = Some qs ->
  ackLevel qs <= T ->
  T ∉ ackedExceptions qs ->
  let out := run (deleteExecution GetWorkflowKey ArchetypeAny EmptyVersion
                    task true stage) in
  out.1 = Some ErrDependencyTaskNotCompleted /\ deletions out.2 = 0%nat.
Proof.
  intros Hlock Hload HT Hnz Hqs Hlevel Hexc out. subst out T.
  rewrite (deleteExecution_loaded _ _ _ _ _ _ _ _ Hlock Hload).
  pose proof (isCloseExecutionTaskPending_pending
                (Archetype := Archetype) (Stage := Stage)
                GetWorkflowKey ms weCtx Hnz) as Hpending.
  rewrite Hqs in Hpending. specialize (Hpending (conj Hlevel Hexc)).
  pose proof (isCloseExecutionTaskPending_trace
                (Archetype := Archetype) (Stage := Stage)
                GetWorkflowKey ms weCtx) as [Hnodel _].
  cbv zeta. rewrite Hpending. simpl. split; [reflexivity|].
  unfold deletions. simpl. rewrite List.filter_app, Hnodel. reflexivity.
Qed.

(** C9.  With the guard enabled and a mutable state whose
    CloseTransferTaskId is not 0, a shard that has no queue state for
    the transfer category makes [deleteExecution] return
    ErrDependencyTaskNotCompleted without invoking the deletion
    primitive. *)
Theorem deleteExecution_no_queue_state
    {shardContext : ShardContext} task stage weCtx ms :
  locked task weCtx ->
  loadMutableStateForTransferTask weCtx task = Ok ms ->
  CloseTransferTaskId ms <> 0 ->
  GetQueueState CategoryTransfer = None ->
  let out := run (deleteExecution GetWorkflowKey ArchetypeAny EmptyVersion
                    task true stage) in
  out.1 = Some ErrDependencyTaskNotCompleted /\ deletions out.2 = 0%nat.
Proof.
  intros Hlock Hload Hnz Hqs out. subst out.
  rewrite (deleteExecution_loaded _ _ _ _ _ _ _ _ Hlock Hload).
  pose proof (isCloseExecutionTaskPending_pending
                (Archetype := Archetype) (Stage := Stage)
                GetWorkflowKey ms weCtx Hnz) as Hpending.
  rewrite Hqs in Hpending. specialize (Hpending I).
  pose proof (isCloseExecutionTaskPending_trace
                (Archetype := Archetype) (Stage := Stage)
                GetWorkflowKey ms weCtx) as [Hnodel _].
  cbv zeta. rewrite Hpending. simpl. split; [reflexivity|].
  unfold deletions. simpl. rewrite List.filter_app, Hnodel. reflexivity.
Qed.

(** C3.  Once the guard has let the task through: a task without a
    version, or with the version EmptyVersion, reaches the deletion
    primitive whatever the close version is; a task with a real version
    v and a close version c reaches the deletion primitive iff v = c,
    and on a mismatch [deleteExecution] returns the version-check error
    without invoking the primitive. *)
Theorem deleteExecution_version_gate
    {shardContext : ShardContext} task (ensure : bool) stage weCtx ms :
  locked task weCtx ->
  loadMutableStateForTransferTask weCtx task = Ok ms ->
  (if ensure
   then (run (isCloseExecutionTaskPending
                (Archetype := Archetype) (Stage := Stage)
                GetWorkflowKey ms weCtx)).1
   else false) = false ->
  let out := run (deleteExecution GetWorkflowKey ArchetypeAny EmptyVersion
                    task ensure stage) in
  (HasVersion task = None \/ HasVersion task = Some EmptyVersion ->
   deletions out.2 = 1%nat /\ out.1 = deleted task weCtx ms stage)
  /\ (forall v c,
         HasVersion task = Some v -> v <> EmptyVersion ->
         GetCloseVersion ms = Ok c ->
         (deletions out.2 = 1%nat <-> v = c)
         /\ (v = c -> out.1 = deleted task weCtx ms stage)
         /\ (v <> c ->
             out.1 = Some ErrTaskVersionMismatch /\ deletions out.2 = 0%nat)).
Proof.
  intros Hlock Hload Hguard out. subst out.
  rewrite (deleteExecution_loaded _ _ _ _ _ _ _ _ Hlock Hload).
  pose proof (isCloseExecutionTaskPending_trace
                (Archetype := Archetype) (Stage := Stage)
                GetWorkflowKey ms weCtx) as [Hnodel _].
  assert (Hdel : forall (b : bool),
             List.filter isDelete
               (if b
                then run (isCloseExecutionTaskPending
                            (Archetype := Archetype) (Stage := Stage)
                            GetWorkflowKey ms weCtx)
                else (false, [])).2 = []).
  { intros []; [exact Hnodel | reflexivity]. }
  assert (Hg : (if ensure
                then run (isCloseExecutionTaskPending
                            (Archetype := Archetype) (Stage := Stage)
                            GetWorkflowKey ms weCtx)
                else (false, [])).1 = false).
  { destruct ensure; [exact Hguard | reflexivity]. }
  cbv zeta. rewrite Hg. unfold deletions. simpl.
  rewrite List.filter_app, (Hdel ensure). simpl.
  split.
  - intros [Hv | Hv]; rewrite Hv; simpl; rewrite Z.eqb_refl; simpl; easy.
  - intros v c Hv Hne Hc. rewrite Hv, Hc. simpl.
    destruct (Z.eqb_spec v EmptyVersion) as [|_]; [contradiction|]. simpl.
    unfold CheckTaskVersion.
    destruct (Z.eqb_spec v EmptyVersion) as [|_]; [contradiction|].
    destruct (Z.eqb_spec c v) as [->|Hcv]; simpl.
    + repeat split; try easy.
    + repeat split; try easy; try congruence.
Qed.

(** C5.  With CloseTransferTaskId = 0 the guard answers false without
    asking for the queue state, so [deleteExecution] with the guard
    enabled runs as it does with the guard disabled and on any shard;
    a task that carries no version then reaches the deletion primitive. *)
Theorem deleteExecution_legacy_close_task_id
    (shardContext shardContext' : ShardContext) task (ensure : bool)
    stage weCtx ms :
  locked task weCtx ->
  loadMutableStateForTransferTask weCtx task = Ok ms ->
  CloseTransferTaskId ms = 0 ->
  run (isCloseExecutionTaskPending
         (Archetype := Archetype) (Stage := Stage) (shardContext := shardContext)
         GetWorkflowKey ms weCtx) = (false, [])
  /\ run (deleteExecution (shardContext := shardContext)
            GetWorkflowKey ArchetypeAny EmptyVersion task ensure stage)
     = run (deleteExecution (shardContext := shardContext')
              GetWorkflowKey ArchetypeAny EmptyVersion task false stage)
  /\ (HasVersion task = None ->
      run (deleteExecution (shardContext := shardContext)
             GetWorkflowKey ArchetypeAny EmptyVersion task ensure stage)
      = (deleted task weCtx ms stage,
         [EvGetOrCreateChasmEntity
            (GetNamespaceID task)
            {| WorkflowId := GetWorkflowID task; RunId := GetRunID task |}
            ArchetypeAny PriorityLow;
          EvLoadMutableState weCtx task;
          EvDeleteWorkflowExecution
            (GetNamespaceID task)
            {| WorkflowId := GetWorkflowID task; RunId := GetRunID task |}
            weCtx ms stage;
          EvRelease (deleted task weCtx ms stage);
          EvCancel])).
Proof.
  intros Hlock Hload Hzero.
  assert (Hguard : forall sc : ShardContext,
             run (isCloseExecutionTaskPending
                    (Archetype := Archetype) (Stage := Stage)
                    (shardContext := sc) GetWorkflowKey ms weCtx)
             = (false, [])).
  { intros sc. unfold run, isCloseExecutionTaskPending.
    now rewrite Hzero. }
  split; [apply Hguard|].
  rewrite (deleteExecution_loaded (shardContext := shardContext)
             _ _ _ _ _ _ _ _ Hlock Hload).
  rewrite (deleteExecution_loaded (shardContext := shardContext')
             _ _ _ _ _ _ _ _ Hlock Hload).
  cbv zeta. rewrite Hguard.
  split.
  - now destruct ensure.
  - intros Hv. rewrite Hv. simpl. rewrite Z.eqb_refl. simpl.
    now destruct ensure.
Qed.

(** C6.  Whenever the workflow lock is acquired, the release callback is
    invoked exactly once, whichever way [deleteExecution] returns, and
    its argument is the error value that [deleteExecution] returns. *)
Theorem deleteExecution_releases_once
    {shardContext : ShardContext} task (ensure : bool) stage weCtx :
  locked task weCtx ->
  let out := run (deleteExecution GetWorkflowKey ArchetypeAny EmptyVersion
                    task ensure stage) in
  released out.2 = [out.1].
Proof.
  intros Hlock out. subst out.
  destruct (loadMutableStateForTransferTask weCtx task) as [ms|e] eqn:Hload.
  - rewrite (deleteExecution_loaded _ _ _ _ _ _ _ _ Hlock Hload).
    pose proof (isCloseExecutionTaskPending_trace
                  (Archetype := Archetype) (Stage := Stage)
                  GetWorkflowKey ms weCtx) as [_ Hnorel].
    cbv zeta. unfold released in *. simpl.
    rewrite !flat_map_app.
    replace (flat_map _ (if ensure then _ else _).2) with (@nil (option error))
      by (destruct ensure; [now rewrite Hnorel | reflexivity]).
    simpl.
    repeat match goal with
      | |- context [if ?b then _ else _] => destruct b; simpl
      | |- context [match ?x with _ => _ end] => destruct x; simpl
      end; reflexivity.
  - unfold run, deleteExecution, defer, call_GetOrCreateChasmEntity,
      call_loadMutableStateForTransferTask, bind, emit, ret.
    simpl. rewrite Hlock, Hload. reflexivity.
Qed.

End DeletionClaims.

(** Scenario C: CloseTransferTaskId = 100, guard enabled, ack level 50. *)
Lemma deleteExecution_close_task_not_acked_witness :
  let out := run (deleteExecution
                    (cache := Scenario.cache)
                    (shardContext := Scenario.queueState 50)
                    (mutableStateLoader := Scenario.loader (Scenario.closed 100 3))
                    (workflowDeleteManager := Scenario.deleter)
                    Scenario.workflowKeyOf tt 0
                    (Scenario.deleteTask (Some 3)) true 0%nat) in
  out.1 = Some ErrDependencyTaskNotCompleted /\ deletions out.2 = 0%nat.
Proof.
  apply (@deleteExecution_close_task_not_acked
           unit WorkflowKey unit nat Scenario.workflowKeyOf tt 0
           Scenario.cache (Scenario.loader (Scenario.closed 100 3))
           Scenario.deleter (Scenario.queueState 50)
           (Scenario.deleteTask (Some 3)) 0%nat Scenario.weCtx1
           (Scenario.closed 100 3)
           {| ackLevel := 50; ackedExceptions := ∅ |} 100).
  - reflexivity.
  - reflexivity.
  - reflexivity.
  - lia.
  - reflexivity.
  - simpl. lia.
  - simpl. apply not_elem_of_empty.
Defined.

Lemma deleteExecution_no_queue_state_witness :
  let out := run (deleteExecution
                    (cache := Scenario.cache)
                    (shardContext := Scenario.noQueueState)
                    (mutableStateLoader := Scenario.loader (Scenario.closed 100 3))
                    (workflowDeleteManager := Scenario.deleter)
                    Scenario.workflowKeyOf tt 0
                    (Scenario.deleteTask (Some 3)) true 0%nat) in
  out.1 = Some ErrDependencyTaskNotCompleted /\ deletions out.2 = 0%nat.
Proof.
  apply (@deleteExecution_no_queue_state
           unit WorkflowKey unit nat Scenario.workflowKeyOf tt 0
           Scenario.cache (Scenario.loader (Scenario.closed 100 3))
           Scenario.deleter Scenario.noQueueState
           (Scenario.deleteTask (Some 3)) 0%nat Scenario.weCtx1
           (Scenario.closed 100 3)).
  - reflexivity.
  - reflexivity.
  - simpl. lia.
  - reflexivity.
Defined.

(** Close version 3 on an acked close task: a task of version 3 and a
    task without version delete, a task of version 2 is stale. *)
Lemma deleteExecution_version_gate_witness :
  (let out := run (deleteExecution
                     (cache := Scenario.cache)
                     (shardContext := Scenario.queueState 200)
                     (mutableStateLoader := Scenario.loader (Scenario.closed 100 3))
                     (workflowDeleteManager := Scenario.deleter)
                     Scenario.workflowKeyOf tt 0
                     (Scenario.deleteTask None) true 0%nat) in
   deletions out.2 = 1%nat /\ out.1 = None)
  /\ (let out := run (deleteExecution
                        (cache := Scenario.cache)
                        (shardContext := Scenario.queueState 200)
                        (mutableStateLoader := Scenario.loader (Scenario.closed 100 3))
                        (workflowDeleteManager := Scenario.deleter)
                        Scenario.workflowKeyOf tt 0
                        (Scenario.deleteTask (Some 3)) true 0%nat) in
      out.1 = None)
  /\ (let out := run (deleteExecution
                        (cache := Scenario.cache)
                        (shardContext := Scenario.queueState 200)
                        (mutableStateLoader := Scenario.loader (Scenario.closed 100 3))
                        (workflowDeleteManager := Scenario.deleter)
                        Scenario.workflowKeyOf tt 0
                        (Scenario.deleteTask (Some 2)) true 0%nat) in
      out.1 = Some ErrTaskVersionMismatch /\ deletions out.2 = 0%nat).
Proof.
  pose proof (fun version =>
                @deleteExecution_version_gate
                  unit WorkflowKey unit nat Scenario.workflowKeyOf tt 0
                  Scenario.cache (Scenario.loader (Scenario.closed 100 3))
                  Scenario.deleter (Scenario.queueState 200)
                  (Scenario.deleteTask version) true 0%nat Scenario.weCtx1
                  (Scenario.closed 100 3) eq_refl eq_refl eq_refl) as Hgate.
  split; [|split].
  - apply (Hgate None). left. reflexivity.
  - apply (Hgate (Some 3)) with (v := 3) (c := 3);
      [reflexivity | lia | reflexivity | reflexivity].
  - apply (Hgate (Some 2)) with (v := 2) (c := 3);
      [reflexivity | lia | reflexivity | lia].
Defined.

(** A legacy run (CloseTransferTaskId = 0) on a shard whose ack level is
    still 50. *)
Lemma deleteExecution_legacy_close_task_id_witness :
  run (deleteExecution
         (cache := Scenario.cache)
         (shardContext := Scenario.queueState 50)
         (mutableStateLoader := Scenario.loader (Scenario.closed 0 3))
         (workflowDeleteManager := Scenario.deleter)
         Scenario.workflowKeyOf tt 0
         (Scenario.deleteTask None) true 0%nat)
  = (None,
     [EvGetOrCreateChasmEntity
        "ns1" {| WorkflowId := "wf1"; RunId := "run1" |} tt PriorityLow;
      EvLoadMutableState Scenario.weCtx1 (Scenario.deleteTask None);
      EvDeleteWorkflowExecution
        "ns1" {| WorkflowId := "wf1"; RunId := "run1" |}
        Scenario.weCtx1 (Scenario.closed 0 3) 0%nat;
      EvRelease None;
      EvCancel]).
Proof.
  apply (@deleteExecution_legacy_close_task_id
           unit WorkflowKey unit nat Scenario.workflowKeyOf tt 0
           Scenario.cache (Scenario.loader (Scenario.closed 0 3))
           Scenario.deleter (Scenario.queueState 50) Scenario.noQueueState
           (Scenario.deleteTask None) true 0%nat Scenario.weCtx1
           (Scenario.closed 0 3) eq_refl eq_refl eq_refl).
  reflexivity.
Defined.

(** The lock is released once with the error of a failed load. *)
Lemma deleteExecution_releases_once_witness :
  let out := run (deleteExecution
                    (cache := Scenario.cache)
                    (shardContext := Scenario.queueState 50)
                    (mutableStateLoader := Scenario.loader_failing)
                    (workflowDeleteManager := Scenario.deleter)
                    Scenario.workflowKeyOf tt 0
                    (Scenario.deleteTask (Some 3)) true 0%nat) in
  out.1 = Some (OtherError "shard ownership lost")
  /\ released out.2 = [out.1].
Proof.
  split; [reflexivity|].
  apply (@deleteExecution_releases_once
           unit WorkflowKey unit nat Scenario.workflowKeyOf tt 0
           Scenario.cache Scenario.loader_failing
           Scenario.deleter (Scenario.queueState 50)
           (Scenario.deleteTask (Some 3)) true 0%nat Scenario.weCtx1).
  reflexivity.
Defined.

(** ** The version-sync fan-out *)

Lemma first_error_snoc l e :
  first_error (l ++ [e]) = cmp_Or (first_error l) e.
Proof.
  induction l as [|[x|] l IH]; simpl; [now destruct e | reflexivity | exact IH].
Qed.

Lemma first_error_Some l e : first_error l = Some e -> Some e ∈ l.
Proof.
  induction l as [|[x|] l IH]; simpl; intros H; [discriminate| |].
  - injection H as ->. apply list_elem_of_here.
  - apply list_elem_of_further. now apply IH.
Qed.

Lemma first_error_None l e : first_error l = None -> Some e ∉ l.
Proof.
  induction l as [|[x|] l IH]; simpl; intros H Hin; [|discriminate|].
  - now apply not_elem_of_nil in Hin.
  - apply elem_of_cons in Hin as [Heq | Hin]; [discriminate|]. now apply IH.
Qed.

Section ListFacts.

Context {A : Type}.

Lemma sum_list_with_insert (f : A -> nat) (l : list A) i x y :
  l !! i = Some x ->
  (sum_list_with f (<[i:=y]> l) + f x = sum_list_with f l + f y)%nat.
Proof.
  revert i. induction l as [|a l IH]; intros [|i] Hi; simpl in *;
    try discriminate.
  - injection Hi as ->. lia.
  - specialize (IH i Hi). lia.
Qed.

Lemma exists_lookup_split (P : nat -> A -> Prop) (l : list A) i x :
  l !! i = Some x ->
  (exists j y, l !! j = Some y /\ P j y)
  <-> P i x \/ (exists j y, j <> i /\ l !! j = Some y /\ P j y).
Proof.
  intros Hi. split.
  - intros (j & y & Hj & HP). destruct (decide (j = i)) as [->|Hne].
    + left. congruence.
    + right. eauto.
  - intros [HP | (j & y & _ & Hj & HP)]; eauto.
Qed.

Lemma exists_lookup_insert (P : nat -> A -> Prop) (l : list A) i x x' :
  l !! i = Some x ->
  (exists j y, <[i:=x']> l !! j = Some y /\ P j y)
  <-> P i x' \/ (exists j y, j <> i /\ l !! j = Some y /\ P j y).
Proof.
  intros Hi. pose proof (lookup_lt_Some _ _ _ Hi) as Hlt. split.
  - intros (j & y & Hj & HP).
    apply list_lookup_insert_Some in Hj as [(-> & -> & _) | (Hne & Hj)].
    + now left.
    + right. exists j, y. auto.
  - intros [HP | (j & y & Hne & Hj & HP)].
    + exists i, x'. split; [now apply list_lookup_insert_eq | exact HP].
    + exists j, y. split; [|exact HP]. rewrite list_lookup_insert_ne; auto.
Qed.

Lemma exists_lookup_snoc (P : nat -> A -> Prop) (l : list A) x :
  (exists j y, (l ++ [x]) !! j = Some y /\ P j y)
  <-> (exists j y, l !! j = Some y /\ P j y) \/ P (length l) x.
Proof.
  split.
  - intros (j & y & Hj & HP).
    apply lookup_snoc_Some in Hj as [[_ Hj] | [-> ->]]; eauto.
  - intros [(j & y & Hj & HP) | HP].
    + exists j, y. split; [|exact HP]. apply lookup_snoc_Some. left.
      split; [now apply lookup_lt_Some in Hj | exact Hj].
    + exists (length l), x. split; [|exact HP]. apply lookup_snoc_Some. now right.
Qed.

End ListFacts.

Lemma max_from_zero_iff (P Q : string -> Z -> Prop) (m : gmap string Z) :
  (forall name v, Q name v <-> P name v) ->
  max_from_zero P m -> max_from_zero Q m.
Proof.
  intros HQ HP name. specialize (HP name).
  destruct (m !! name) as [v|].
  - destruct HP as ((w & Hw) & Hub & Hpos & Hv). repeat split.
    + exists w. now apply HQ.
    + intros w' Hw'. apply Hub. now apply HQ.
    + exact Hpos.
    + destruct Hv as [->|Hv]; [now left | right; now apply HQ].
  - intros v Hv. apply (HP v). now apply HQ.
Qed.

(** The map update of the critical section keeps the map the maximum of
    what has been applied. *)
Lemma max_from_zero_insert (P Q : string -> Z -> Prop) (m : gmap string Z) n x :
  (forall name v, Q name v <-> P name v \/ (name = n /\ v = x)) ->
  max_from_zero P m ->
  max_from_zero Q (<[n := Z.max (default 0 (m !! n)) x]> m).
Proof.
  intros HQ HP name. destruct (decide (name = n)) as [->|Hne].
  - rewrite lookup_insert_eq. specialize (HP n).
    destruct (m !! n) as [old|]; simpl.
    + destruct HP as (_ & Hub & Hpos & Hv). repeat split.
      * exists x. apply HQ. now right.
      * intros w Hw. apply HQ in Hw as [Hw | [_ ->]]; [|lia].
        specialize (Hub w Hw). lia.
      * lia.
      * destruct (Z.max_spec old x) as [[_ ->] | [_ ->]].
        -- right. apply HQ. now right.
        -- destruct Hv as [->|Hv]; [now left | right; apply HQ; now left].
    + repeat split.
      * exists x. apply HQ. now right.
      * intros w Hw. apply HQ in Hw as [Hw | [_ ->]]; [|lia].
        now apply HP in Hw.
      * lia.
      * destruct (Z.max_spec 0 x) as [[_ ->] | [_ ->]].
        -- right. apply HQ. now right.
        -- now left.
  - rewrite lookup_insert_ne by congruence.
    assert (HQ' : forall v, Q name v <-> P name v).
    { intros v. rewrite HQ. intuition congruence. }
    specialize (HP name). destruct (m !! name) as [v|].
    + destruct HP as ((w & Hw) & Hub & Hpos & Hv). repeat split.
      * exists w. now apply HQ'.
      * intros w' Hw'. apply Hub. now apply HQ'.
      * exact Hpos.
      * destruct Hv as [->|Hv]; [now left | right; now apply HQ'].
    + intros v Hv. apply (HP v). now apply HQ'.
Qed.

Lemma max_from_zero_nonneg (P : string -> Z -> Prop) (m : gmap string Z) :
  (forall name v, P name v -> 0 <= v) ->
  max_from_zero P m -> max_versions P m.
Proof.
  intros Hpos HP name. specialize (HP name).
  destruct (m !! name) as [v|]; [|exact HP].
  destruct HP as ((w & Hw) & Hub & Hv0 & Hv). split; [|exact Hub].
  destruct Hv as [->|Hv]; [|exact Hv].
  pose proof (Hpos _ _ Hw). pose proof (Hub _ Hw).
  now replace 0 with w by lia.
Qed.

Section FanoutFacts.

Context {TaskQueueType DeploymentVersion Timestamp Percentage : Type}.
Context {matchingClient :
          @MatchingClient TaskQueueType DeploymentVersion Timestamp Percentage}.
Variable taskQueueSyncs :
  list (@SyncUserData TaskQueueType DeploymentVersion Timestamp Percentage).
Variable request_of :
  @SyncUserData TaskQueueType DeploymentVersion Timestamp Percentage ->
  @SyncDeploymentUserDataRequest TaskQueueType DeploymentVersion Timestamp Percentage.

Lemma contributes_insert gs i g g' name v :
  gs !! i = Some g ->
  contributes request_of (<[i:=g']> gs) name v
  <-> got request_of name v i g'
      \/ (exists j h, j <> i /\ gs !! j = Some h /\ got request_of name v j h).
Proof. intros Hi. unfold contributes. now apply exists_lookup_insert with g. Qed.

Lemma contributes_split gs i g name v :
  gs !! i = Some g ->
  contributes request_of gs name v
  <-> got request_of name v i g
      \/ (exists j h, j <> i /\ gs !! j = Some h /\ got request_of name v j h).
Proof. intros Hi. unfold contributes. now apply exists_lookup_split. Qed.

Lemma delivered_insert gs i g g' e :
  gs !! i = Some g ->
  delivered request_of (<[i:=g']> gs) e
  <-> failed request_of e i g'
      \/ (exists j h, j <> i /\ gs !! j = Some h /\ failed request_of e j h).
Proof. intros Hi. unfold delivered. now apply exists_lookup_insert with g. Qed.

Lemma delivered_split gs i g e :
  gs !! i = Some g ->
  delivered request_of gs e
  <-> failed request_of e i g
      \/ (exists j h, j <> i /\ gs !! j = Some h /\ failed request_of e j h).
Proof. intros Hi. unfold delivered. now apply exists_lookup_split. Qed.

Lemma goroutines_ok_insert
    (gs : list (@goroutine TaskQueueType DeploymentVersion Timestamp Percentage))
    i g g' :
  gs !! i = Some g ->
  goroutine_ok taskQueueSyncs request_of i g' ->
  (forall j h, gs !! j = Some h -> goroutine_ok taskQueueSyncs request_of j h) ->
  forall j h, <[i:=g']> gs !! j = Some h ->
              goroutine_ok taskQueueSyncs request_of j h.
Proof.
  intros Hi Hg' Hall j h Hj.
  apply list_lookup_insert_Some in Hj as [(-> & -> & _) | (_ & Hj)]; auto.
Qed.

Lemma invariant_init :
  invariant taskQueueSyncs request_of (init taskQueueSyncs).
Proof.
  split; simpl.
  - intros i g Hi. discriminate.
  - now split.
  - intros name. rewrite lookup_empty. intros v (i & g & Hi & _). discriminate.
  - reflexivity.
  - intros e. split.
    + intros Hin. now apply not_elem_of_nil in Hin.
    + intros (i & g & Hi & _). discriminate.
Qed.

Lemma main_invariant_insert
    (gs : list (@goroutine TaskQueueType DeploymentVersion Timestamp Percentage))
    i g g' (p : pc) :
  gs !! i = Some g ->
  syncData g' = syncData g ->
  exitedN g' = exitedN g ->
  match p with
  | Spawning rest =>
      taskQueueSyncs = (syncData <$> gs) ++ rest
      /\ sum_list_with exitedN gs = 0%nat
  | Receiving k =>
      length gs = length taskQueueSyncs
      /\ (k + sum_list_with exitedN gs)%nat = length gs
  | Finished =>
      length gs = length taskQueueSyncs
      /\ sum_list_with exitedN gs = length gs
  end ->
  match p with
  | Spawning rest =>
      taskQueueSyncs = (syncData <$> <[i:=g']> gs) ++ rest
      /\ sum_list_with exitedN (<[i:=g']> gs) = 0%nat
  | Receiving k =>
      length (<[i:=g']> gs) = length taskQueueSyncs
      /\ (k + sum_list_with exitedN (<[i:=g']> gs))%nat = length (<[i:=g']> gs)
  | Finished =>
      length (<[i:=g']> gs) = length taskQueueSyncs
      /\ sum_list_with exitedN (<[i:=g']> gs) = length (<[i:=g']> gs)
  end.
Proof.
  intros Hi Hsd Hex Hmain.
  pose proof (sum_list_with_insert exitedN gs i g g' Hi) as Hsum.
  rewrite length_insert.
  assert (Hfmap : syncData <$> <[i:=g']> gs = syncData <$> gs).
  { rewrite list_fmap_insert, Hsd. apply list_insert_id.
    rewrite list_lookup_fmap, Hi. reflexivity. }
  rewrite Hfmap.
  destruct p; destruct Hmain as [H1 H2]; (split; [exact H1 | lia]).
Qed.

Lemma step_invariant s s' :
  invariant taskQueueSyncs request_of s ->
  step taskQueueSyncs request_of s s' ->
  invariant taskQueueSyncs request_of s'.
Proof.
  intros [Hgs Hmain Hmap Herr Hrcv] Hstep.
  destruct Hstep as
    [ e rest gs m er rcv
    | gs m er rcv
    | i sd p gs m er rcv Hi
    | i sd e p gs m er rcv Hi
    | i sd res p gs m er rcv Hi
    | i sd e k gs m er rcv Hi
    | gs m er rcv ];
    simpl in *.
  - (* go *)
    destruct Hmain as [Hsyncs Hnone].
    split; simpl.
    + intros j h Hj. apply lookup_snoc_Some in Hj as [[_ Hj] | [-> <-]]; auto.
      split; [|exact I]. simpl. rewrite Hsyncs.
      rewrite lookup_app_r by (rewrite length_fmap; lia).
      rewrite length_fmap, Nat.sub_diag. reflexivity.
    + rewrite fmap_app, <- app_assoc, sum_list_with_app. simpl.
      split; [exact Hsyncs | cbn; lia].
    + revert Hmap. apply max_from_zero_iff. intros name v.
      unfold contributes. rewrite exists_lookup_snoc.
      unfold got at 2. simpl. intuition discriminate.
    + exact Herr.
    + intros e'. rewrite Hrcv. unfold delivered.
      rewrite exists_lookup_snoc. unfold failed at 3. simpl.
      intuition discriminate.
  - (* all goroutines launched *)
    destruct Hmain as [Hsyncs Hnone].
    split; simpl; auto.
    assert (Hlen : length gs = length taskQueueSyncs).
    { rewrite Hsyncs, app_nil_r, length_fmap. reflexivity. }
    split; [exact Hlen | lia].
  - (* the call returns *)
    pose proof (Hgs _ _ Hi) as [Hsd _]. simpl in Hsd.
    pose proof (sum_list_with_insert exitedN gs i _
                  {| syncData := sd;
                     at_phase := Returned (SyncDeploymentUserData i (request_of sd)) |}
                  Hi) as Hsum.
    unfold exitedN in Hsum at 2 4. simpl in Hsum.
    split; simpl.
    + eapply goroutines_ok_insert; eauto. now split.
    + now apply main_invariant_insert with (g := {| syncData := sd; at_phase := Calling |}).
    + revert Hmap. apply max_from_zero_iff. intros name v.
      rewrite (contributes_insert _ _ _ _ _ _ Hi), (contributes_split _ _ _ _ _ Hi).
      unfold got at 1 3. simpl. intuition discriminate.
    + exact Herr.
    + intros e'. rewrite Hrcv.
      rewrite (delivered_insert _ _ _ _ _ Hi), (delivered_split _ _ _ _ Hi).
      unfold failed at 1 3. simpl. intuition discriminate.
  - (* the call failed *)
    pose proof (Hgs _ _ Hi) as [Hsd Hans]. simpl in Hsd, Hans.
    pose proof (sum_list_with_insert exitedN gs i _
                  {| syncData := sd; at_phase := Sending (Some e) |}
                  Hi) as Hsum.
    unfold exitedN in Hsum at 2 4. simpl in Hsum.
    split; simpl.
    + eapply goroutines_ok_insert; eauto. split; [exact Hsd|]. simpl.
      now rewrite <- Hans.
    + now apply main_invariant_insert with (g := {| syncData := sd; at_phase := Returned (Err e) |}).
    + revert Hmap. apply max_from_zero_iff. intros name v.
      rewrite (contributes_insert _ _ _ _ _ _ Hi), (contributes_split _ _ _ _ _ Hi).
      unfold got at 1 3. simpl. rewrite <- Hans.
      split; (intros [H|H]; [|now right]).
      * destruct H as (_ & _ & r & Hr & _). discriminate.
      * destruct H as (H & _). discriminate.
    + exact Herr.
    + intros e'. rewrite Hrcv.
      rewrite (delivered_insert _ _ _ _ _ Hi), (delivered_split _ _ _ _ Hi).
      unfold failed at 1 3. simpl. intuition discriminate.
  - (* the map update *)
    pose proof (Hgs _ _ Hi) as [Hsd Hans]. simpl in Hsd, Hans.
    pose proof (sum_list_with_insert exitedN gs i _
                  {| syncData := sd; at_phase := Sending None |}
                  Hi) as Hsum.
    unfold exitedN in Hsum at 2 4. simpl in Hsum.
    split; simpl.
    + eapply goroutines_ok_insert; eauto. split; [exact Hsd|]. simpl.
      now rewrite <- Hans.
    + now apply main_invariant_insert with (g := {| syncData := sd; at_phase := Returned (Ok res) |}).
    + revert Hmap. apply max_from_zero_insert. intros name v.
      rewrite (contributes_insert _ _ _ _ _ _ Hi), (contributes_split _ _ _ _ _ Hi).
      unfold got at 1 3. simpl. rewrite <- Hans.
      split.
      * intros [(_ & Hname & r & Hr & Hv) | H]; [|left; now right].
        right. injection Hr as <-. auto.
      * intros [[(H & _) | H] | [-> ->]]; [discriminate | now right |].
        left. repeat split. exists res. auto.
    + exact Herr.
    + intros e'. rewrite Hrcv.
      rewrite (delivered_insert _ _ _ _ _ Hi), (delivered_split _ _ _ _ Hi).
      unfold failed at 1 3. simpl. intuition discriminate.
  - (* a send meets a receive *)
    pose proof (Hgs _ _ Hi) as [Hsd Hans]. simpl in Hsd, Hans.
    pose proof (sum_list_with_insert exitedN gs i _
                  {| syncData := sd; at_phase := Exited |}
                  Hi) as Hsum.
    unfold exitedN in Hsum at 2 4. simpl in Hsum.
    split; simpl.
    + eapply goroutines_ok_insert; eauto. now split.
    + rewrite length_insert. split; [tauto | lia].
    + revert Hmap. apply max_from_zero_iff. intros name v.
      rewrite (contributes_insert _ _ _ _ _ _ Hi), (contributes_split _ _ _ _ _ Hi).
      unfold got at 1 3. simpl. tauto.
    + rewrite first_error_snoc. now rewrite Herr.
    + intros e'. rewrite elem_of_app, list_elem_of_singleton, Hrcv.
      rewrite (delivered_insert _ _ _ _ _ Hi), (delivered_split _ _ _ _ Hi).
      unfold failed at 1 3. simpl. subst e.
      split.
      * intros [[[H _] | H] | Heq]; [discriminate | now right |].
        left. split; [reflexivity|].
        destruct (answer request_of i sd); simpl in Heq; congruence.
      * intros [[_ Hfail] | H]; [|left; now right].
        right. now rewrite Hfail.
  - (* the receive loop ends *)
    split; simpl; auto.
Qed.

Lemma invariant_reachable s :
  rtc (step taskQueueSyncs request_of) (init taskQueueSyncs) s ->
  invariant taskQueueSyncs request_of s.
Proof.
  revert s. apply rtc_ind_r.
  - apply invariant_init.
  - intros s s' _ Hstep Hinv. now apply step_invariant with s.
Qed.

(** Every action uses up one unit of the measure. *)
Lemma step_measure s s' :
  step taskQueueSyncs request_of s s' ->
  (measure taskQueueSyncs s' < measure taskQueueSyncs s)%nat.
Proof.
  intros Hstep.
  destruct Hstep as
    [ e rest gs m er rcv
    | gs m er rcv
    | i sd p gs m er rcv Hi
    | i sd e p gs m er rcv Hi
    | i sd res p gs m er rcv Hi
    | i sd e k gs m er rcv Hi
    | gs m er rcv ];
    unfold measure; simpl;
    try (match goal with
         | |- context [sum_list_with weight (<[i:=?g']> gs)] =>
             pose proof (sum_list_with_insert weight gs i _ g' Hi) as Hsum;
             unfold weight in Hsum at 2 4; simpl in Hsum
         end);
    rewrite ?sum_list_with_app; simpl; try lia.
Qed.

Lemma exitedN_le
    (gs : list (@goroutine TaskQueueType DeploymentVersion Timestamp Percentage)) :
  (sum_list_with exitedN gs <= length gs)%nat.
Proof.
  induction gs as [|g gs IH]; simpl; [lia|].
  unfold exitedN at 1. destruct (exited g); lia.
Qed.

Lemma all_exited
    (gs : list (@goroutine TaskQueueType DeploymentVersion Timestamp Percentage)) :
  sum_list_with exitedN gs = length gs ->
  forall i g, gs !! i = Some g -> exited g = true.
Proof.
  induction gs as [|a gs IH]; simpl; intros Hsum i g Hi; [discriminate|].
  pose proof (exitedN_le gs) as Hle.
  unfold exitedN in Hsum at 1.
  destruct i as [|i]; simpl in Hi.
  - injection Hi as <-. destruct (exited a); [reflexivity | lia].
  - apply (IH ltac:(destruct (exited a); lia) i g Hi).
Qed.

Lemma some_not_exited
    (gs : list (@goroutine TaskQueueType DeploymentVersion Timestamp Percentage)) :
  (sum_list_with exitedN gs < length gs)%nat ->
  exists i g, gs !! i = Some g /\ exited g = false.
Proof.
  induction gs as [|a gs IH]; simpl; intros Hsum; [lia|].
  destruct (exited a) eqn:Ha.
  - unfold exitedN in Hsum at 1. rewrite Ha in Hsum.
    destruct (IH ltac:(lia)) as (i & g & Hi & Hg).
    exists (S i), g. auto.
  - exists 0%nat, a. auto.
Qed.

(** No deadlock: a run that is not over can go on. *)
Lemma progress s :
  invariant taskQueueSyncs request_of s ->
  main s <> Finished ->
  exists s', step taskQueueSyncs request_of s s'.
Proof.
  intros [_ Hmain _ _ _] Hnot.
  destruct s as [p gs m er rcv]; simpl in *.
  destruct p as [[|e rest] | [|k] | ]; [| | | |contradiction].
  - eexists. apply step_launched.
  - eexists. apply step_go.
  - eexists. apply step_received.
  - destruct Hmain as [_ Hk].
    destruct (some_not_exited gs ltac:(lia)) as (i & [sd ph] & Hi & Hex).
    destruct ph as [|[res|e]|e|]; [| | | |discriminate].
    + eexists. apply (step_call _ _ i sd _ _ _ _ _ Hi).
    + eexists. apply (step_update _ _ i sd res _ _ _ _ _ Hi).
    + eexists. apply (step_failed _ _ i sd e _ _ _ _ _ Hi).
    + eexists. apply (step_receive _ _ i sd e _ _ _ _ _ Hi).
Qed.

(** Every run can be carried on until the activity returns. *)
Lemma terminates n s :
  (measure taskQueueSyncs s <= n)%nat ->
  invariant taskQueueSyncs request_of s ->
  exists s', rtc (step taskQueueSyncs request_of) s s' /\ main s' = Finished.
Proof.
  revert s. induction n as [|n IH]; intros s Hn Hinv.
  - destruct s as [[rest|k|] gs m er rcv];
      unfold measure in Hn; simpl in Hn; try lia.
    eexists. split; [apply rtc_refl | reflexivity].
  - assert (Hdec : main s = Finished \/ main s <> Finished)
      by (destruct (main s); auto).
    destruct Hdec as [Hfin|Hnot].
    + exists s. split; [apply rtc_refl | exact Hfin].
    + destruct (progress s Hinv Hnot) as [s1 Hstep].
      pose proof (step_measure _ _ Hstep) as Hlt.
      destruct (IH s1 ltac:(lia) (step_invariant _ _ Hinv Hstep))
        as (s' & Hrun & Hfin).
      exists s'. split; [|exact Hfin]. now apply rtc_l with s1.
Qed.

(** When the receive loop is over, what the goroutines hold is what
    the calls returned. *)
Lemma finished_calls s :
  invariant taskQueueSyncs request_of s ->
  main s = Finished ->
  (forall e, delivered request_of (goroutines s) e
             <-> fails_with taskQueueSyncs request_of e)
  /\ (forall name v, contributes request_of (goroutines s) name v
                     <-> reports taskQueueSyncs request_of name v).
Proof.
  intros [Hgs Hmain _ _ _] Hfin. rewrite Hfin in Hmain.
  destruct Hmain as [Hlen Hall].
  pose proof (all_exited _ Hall) as Hexited.
  assert (Hget : forall i sd,
             taskQueueSyncs !! i = Some sd ->
             exists g, goroutines s !! i = Some g /\ syncData g = sd
                       /\ exited g = true).
  { intros i sd Hi. pose proof (lookup_lt_Some _ _ _ Hi) as Hlt.
    rewrite <- Hlen in Hlt. apply lookup_lt_is_Some_2 in Hlt as [g Hg].
    exists g. split; [exact Hg|].
    destruct (Hgs _ _ Hg) as [Hsd _]. split; [congruence|]. eauto. }
  split.
  - intros e. split.
    + intros (i & g & Hg & _ & Hans).
      destruct (Hgs _ _ Hg) as [Hsd _]. exists i, (syncData g). auto.
    + intros (i & sd & Hi & Hans).
      destruct (Hget _ _ Hi) as (g & Hg & <- & Hex).
      exists i, g. repeat split; auto.
  - intros name v. split.
    + intros (i & g & Hg & _ & Hname & res & Hans & Hv).
      destruct (Hgs _ _ Hg) as [Hsd _]. exists i, (syncData g), res. auto.
    + intros (i & sd & res & Hi & Hname & Hans & Hv).
      destruct (Hget _ _ Hi) as (g & Hg & <- & Hex).
      exists i, g. split; [exact Hg|]. repeat split; eauto.
      unfold exited in Hex. unfold applied. now destruct (at_phase g).
Qed.

(** What a finished run returns. *)
Lemma fans_out_reduced res :
  fans_out taskQueueSyncs request_of res ->
  (res.2 <> None <-> exists e, fails_with taskQueueSyncs request_of e)
  /\ (forall e, res.2 = Some e ->
                fails_with taskQueueSyncs request_of e /\ res.1 = None)
  /\ (res.2 = None ->
      exists resp,
        res.1 = Some resp
        /\ max_from_zero (reports taskQueueSyncs request_of)
                         (TaskQueueMaxVersions resp)).
Proof.
  intros (s & Hrun & Hfin & ->).
  pose proof (invariant_reachable s Hrun) as Hinv.
  destruct (finished_calls s Hinv Hfin) as [Hfail Hrep].
  destruct Hinv as [_ _ Hmap Herr Hrcv].
  unfold outcome. rewrite Herr.
  destruct (first_error (received s)) as [e|] eqn:Hfirst; simpl.
  - assert (Hfails : fails_with taskQueueSyncs request_of e).
    { apply Hfail, Hrcv. now apply first_error_Some. }
    split; [|split].
    + split; [eauto | discriminate].
    + intros e' [= <-]. auto.
    + discriminate.
  - split; [|split].
    + split; [congruence|]. intros (e & He).
      apply Hfail, Hrcv in He. now apply first_error_None with (e := e) in Hfirst.
    + discriminate.
    + intros _. eexists. split; [reflexivity|]. simpl.
      revert Hmap. apply max_from_zero_iff. intros name v. symmetry. apply Hrep.
Qed.

Lemma fans_out_returns :
  exists res, fans_out taskQueueSyncs request_of res.
Proof.
  destruct (terminates _ (init taskQueueSyncs) (Nat.le_refl _) invariant_init)
    as (s & Hrun & Hfin).
  exists (outcome s), s. auto.
Qed.

End FanoutFacts.

Section VersionSyncClaims.

Context {TaskQueueType DeploymentVersion Timestamp Percentage : Type}.
Variable namespaceID : string.
Context {matchingClient :
          @MatchingClient TaskQueueType DeploymentVersion Timestamp Percentage}
        {deploymentClient : @DeploymentClient TaskQueueType}.

Lemma fans_out_first_error_wins
    (taskQueueSyncs :
      list (@SyncUserData TaskQueueType DeploymentVersion Timestamp Percentage))
    request_of res :
  fans_out taskQueueSyncs request_of res ->
  first_error_wins taskQueueSyncs request_of res.
Proof.
  intros Hrun.
  destruct (fans_out_reduced _ _ _ Hrun) as (Hiff & Herr & Hok).
  split; [exact Hiff | split; [exact Herr|]].
  intros Hnone.
  destruct res as [r [e|]]; simpl in *.
  - destruct (Herr e eq_refl) as [Hfail _]. now apply Hnone in Hfail.
  - destruct (Hok eq_refl) as (resp & -> & Hmax).
    exists resp. split; [reflexivity|].
    intros Hpos. revert Hmax. now apply max_from_zero_nonneg.
Qed.


End VersionSyncClaims.

(** A run of the scenario: both goroutines are launched, call, update
    the map and send; the second is received first. *)
Lemma scenario_sync_runs :
  exists res,
    SyncDeploymentVersionUserDataFromWorkerDeployment
      (matchingClient := Scenario.matching_versions)
      "ns1" Scenario.syncInput res.
Proof.
  unfold SyncDeploymentVersionUserDataFromWorkerDeployment, fans_out.
  eexists. eexists. split; [|split; [|reflexivity]].
  - unfold init. simpl.
    eapply rtc_l; [apply step_go|].
    eapply rtc_l; [apply step_go|].
    eapply rtc_l; [apply step_launched|].
    eapply rtc_l; [apply (step_call _ _ 0%nat); reflexivity|].
    eapply rtc_l; [apply (step_update _ _ 0%nat); reflexivity|].
    eapply rtc_l; [apply (step_call _ _ 1%nat); reflexivity|].
    eapply rtc_l; [apply (step_update _ _ 1%nat); reflexivity|].
    eapply rtc_l; [apply (step_receive _ _ 1%nat); reflexivity|].
    eapply rtc_l; [apply (step_receive _ _ 0%nat); reflexivity|].
    eapply rtc_l; [apply step_received|].
    apply rtc_refl.
  - reflexivity.
Qed.


(** * Further properties *)

(** ** More about the deletion coordinator *)

Section DeletionExtras.

Context {Namespace WorkflowContext Archetype Stage : Type}.
Variable GetWorkflowKey : WorkflowContext -> WorkflowKey.
Variable ArchetypeAny : Archetype.
Variable EmptyVersion : Z.
Context {cache : @Cache WorkflowContext Archetype}
        {mutableStateLoader : @MutableStateLoader Namespace WorkflowContext}
        {workflowDeleteManager : @DeleteManager Namespace WorkflowContext Stage}.

Local Abbreviation lockRequest task :=
  (EvGetOrCreateChasmEntity
     (Namespace := Namespace) (WorkflowContext := WorkflowContext) (Stage := Stage)
     (GetNamespaceID task)
     {| WorkflowId := GetWorkflowID task; RunId := GetRunID task |}
     ArchetypeAny PriorityLow).

Local Abbreviation lockResult task :=
  (GetOrCreateChasmEntity
     (GetNamespaceID task)
     {| WorkflowId := GetWorkflowID task; RunId := GetRunID task |}
     ArchetypeAny PriorityLow).

Local Abbreviation deleteCall task weCtx ms stage :=
  (EvDeleteWorkflowExecution
     (Archetype := Archetype)
     (GetNamespaceID task)
     {| WorkflowId := GetWorkflowID task; RunId := GetRunID task |}
     weCtx ms stage).

Local Abbreviation deleteResult task weCtx ms stage :=
  (DeleteWorkflowExecution
     (GetNamespaceID task)
     {| WorkflowId := GetWorkflowID task; RunId := GetRunID task |}
     weCtx ms stage).

(** The run of [deleteExecution] when the lock is not acquired. *)
Lemma deleteExecution_without_lock
    {shardContext : ShardContext} task (ensure : bool) stage e :
  lockResult task = Err e ->
  run (deleteExecution GetWorkflowKey ArchetypeAny EmptyVersion
         task ensure stage)
  = (Some e, [lockRequest task; EvCancel]).
Proof.
  intros Hlock.
  unfold run, deleteExecution, defer, call_GetOrCreateChasmEntity,
    bind, emit, ret.
  simpl. rewrite Hlock. reflexivity.
Qed.

(** The run of [deleteExecution] when the mutable state is not loaded. *)
Lemma deleteExecution_without_state
    {shardContext : ShardContext} task (ensure : bool) stage weCtx e :
  lockResult task = Ok weCtx ->
  loadMutableStateForTransferTask weCtx task = Err e ->
  run (deleteExecution GetWorkflowKey ArchetypeAny EmptyVersion
         task ensure stage)
  = (Some e,
     [lockRequest task; EvLoadMutableState weCtx task;
      EvRelease (Some e); EvCancel]).
Proof.
  intros Hlock Hload.
  unfold run, deleteExecution, defer, call_GetOrCreateChasmEntity,
    call_loadMutableStateForTransferTask, bind, emit, ret.
  simpl. rewrite Hlock, Hload. reflexivity.
Qed.

(** X1.  When the workflow lock cannot be acquired, [deleteExecution]
    returns the cache's error and does nothing else: it loads no mutable
    state, asks for no queue state, deletes nothing and calls no release
    callback; only the context is cancelled. *)
Theorem deleteExecution_lock_failed
    {shardContext : ShardContext} task (ensure : bool) stage e :
  lockResult task = Err e ->
  let out := run (deleteExecution GetWorkflowKey ArchetypeAny EmptyVersion
                    task ensure stage) in
  out = (Some e, [lockRequest task; EvCancel])
  /\ released out.2 = []
  /\ deletions out.2 = 0%nat
  /\ queueStateQueries out.2 = [].
Proof.
  intros Hlock out. subst out.
  rewrite (deleteExecution_without_lock _ _ _ _ Hlock). now repeat split.
Qed.

(** X2.  When the mutable state cannot be loaded, [deleteExecution]
    returns the loader's error right after the load: the guard and the
    version check are not run, the deletion primitive is not invoked,
    and the lock is released with that error. *)
Theorem deleteExecution_load_failed
    {shardContext : ShardContext} task (ensure : bool) stage weCtx e :
  lockResult task = Ok weCtx ->
  loadMutableStateForTransferTask weCtx task = Err e ->
  let out := run (deleteExecution GetWorkflowKey ArchetypeAny EmptyVersion
                    task ensure stage) in
  out = (Some e,
         [lockRequest task; EvLoadMutableState weCtx task;
          EvRelease (Some e); EvCancel])
  /\ deletions out.2 = 0%nat
  /\ queueStateQueries out.2 = [].
Proof.
  intros Hlock Hload out. subst out.
  rewrite (deleteExecution_without_state _ _ _ _ _ Hlock Hload).
  now repeat split.
Qed.

(** The guard asks for the transfer queue state once, unless the
    close-transfer task id is the legacy 0. *)
Lemma isCloseExecutionTaskPending_queries
    {shardContext : ShardContext} (ms : @MutableState Namespace) weCtx :
  (run (isCloseExecutionTaskPending
          (Archetype := Archetype) (Stage := Stage)
          GetWorkflowKey ms weCtx)).2
  = if CloseTransferTaskId ms =? 0 then []
    else [EvGetQueueState CategoryTransfer].
Proof.
  unfold run, isCloseExecutionTaskPending, call_GetQueueState, bind, emit, ret.
  destruct (CloseTransferTaskId ms =? 0); simpl; [reflexivity|].
  now destruct (GetQueueState CategoryTransfer).
Qed.

Local Abbreviation queriesOf l :=
  (@EvGetQueueState Namespace WorkflowContext Archetype Stage <$> l).

Lemma queries_only (l : list Category) :
  List.filter isDelete (queriesOf l) = []
  /\ released (queriesOf l) = []
  /\ queueStateQueries (queriesOf l) = l.
Proof.
  unfold released, queueStateQueries.
  induction l as [|c l (IH1 & IH2 & IH3)]; simpl; auto.
  repeat split; auto. f_equal. exact IH3.
Qed.

(** What the guard appends to the trace. *)
Lemma guard_queries
    {shardContext : ShardContext} (ensure : bool)
    (ms : @MutableState Namespace) weCtx :
  exists l,
    (if ensure
     then run (isCloseExecutionTaskPending
                 (Archetype := Archetype) (Stage := Stage)
                 GetWorkflowKey ms weCtx)
     else (false, [])).2 = queriesOf l.
Proof.
  destruct ensure; [|now exists []].
  rewrite isCloseExecutionTaskPending_queries.
  destruct (CloseTransferTaskId ms =? 0);
    [now exists [] | now exists [CategoryTransfer]].
Qed.

(** X3.  With the guard disabled, [deleteExecution] never asks the
    shard for a queue state, and runs the same on every shard context,
    whatever close-transfer task id the mutable state records. *)
Theorem deleteExecution_guard_disabled
    (shardContext shardContext' : ShardContext) task stage :
  let out := run (deleteExecution (shardContext := shardContext)
                    GetWorkflowKey ArchetypeAny EmptyVersion
                    task false stage) in
  queueStateQueries out.2 = []
  /\ out = run (deleteExecution (shardContext := shardContext')
                  GetWorkflowKey ArchetypeAny EmptyVersion
                  task false stage).
Proof.
  intros out. subst out.
  destruct (lockResult task) as [weCtx|e] eqn:Hlock.
  2:{ now rewrite !(deleteExecution_without_lock _ _ _ _ Hlock). }
  destruct (loadMutableStateForTransferTask weCtx task) as [ms|e] eqn:Hload.
  2:{ now rewrite !(deleteExecution_without_state _ _ _ _ _ Hlock Hload). }
  rewrite (deleteExecution_loaded (shardContext := shardContext)
             _ _ _ _ _ _ _ _ Hlock Hload).
  rewrite (deleteExecution_loaded (shardContext := shardContext')
             _ _ _ _ _ _ _ _ Hlock Hload).
  cbv zeta. split; [|reflexivity]. simpl.
  repeat match goal with
    | |- context [if ?b then _ else _] => destruct b; simpl
    | |- context [match ?x with _ => _ end] => destruct x; simpl
    end; reflexivity.
Qed.

(** X4.  When the task carries a real version and the close version
    cannot be read from the mutable state, [deleteExecution] returns
    that error without invoking the deletion primitive. *)
Theorem deleteExecution_close_version_unreadable
    {shardContext : ShardContext} task (ensure : bool) stage weCtx ms v e :
  lockResult task = Ok weCtx ->
  loadMutableStateForTransferTask weCtx task = Ok ms ->
  (if ensure
   then (run (isCloseExecutionTaskPending
                (Archetype := Archetype) (Stage := Stage)
                GetWorkflowKey ms weCtx)).1
   else false) = false ->
  HasVersion task = Some v ->
  v <> EmptyVersion ->
  GetCloseVersion ms = Err e ->
  let out := run (deleteExecution GetWorkflowKey ArchetypeAny EmptyVersion
                    task ensure stage) in
  out.1 = Some e /\ deletions out.2 = 0%nat /\ released out.2 = [Some e].
Proof.
  intros Hlock Hload Hguard Hv Hne Hclose out. subst out.
  rewrite (deleteExecution_loaded _ _ _ _ _ _ _ _ Hlock Hload). cbv zeta.
  assert (Hg : (if ensure
                then run (isCloseExecutionTaskPending
                            (Archetype := Archetype) (Stage := Stage)
                            GetWorkflowKey ms weCtx)
                else (false, [])).1 = false).
  { destruct ensure; [exact Hguard | reflexivity]. }
  destruct (guard_queries ensure ms weCtx) as [l Hq].
  destruct (queries_only l) as (Hl1 & Hl2 & _).
  rewrite Hg, Hq, Hv, Hclose. simpl.
  destruct (Z.eqb_spec v EmptyVersion) as [|_]; [contradiction|]. simpl.
  split; [reflexivity|].
  unfold deletions. simpl. rewrite List.filter_app, Hl1. simpl.
  split; [reflexivity|].
  change (released (queriesOf l ++ [EvRelease (Some e); EvCancel]) = [Some e]).
  unfold released in *. rewrite flat_map_app, Hl2. reflexivity.
Qed.

(** X5.  The deletion primitive is invoked at most once, and only
    while the workflow lock is held: if it is invoked, it gets the
    context the cache handed out and the mutable state the loader
    returned, it is immediately followed by the release of the lock and
    the cancellation, and [deleteExecution] returns, and releases the
    lock with, the primitive's own result. *)
Theorem deleteExecution_deletes_under_lock
    {shardContext : ShardContext} task (ensure : bool) stage :
  let out := run (deleteExecution GetWorkflowKey ArchetypeAny EmptyVersion
                    task ensure stage) in
  (deletions out.2 <= 1)%nat
  /\ (deletions out.2 = 1%nat ->
      exists weCtx ms before,
        lockResult task = Ok weCtx
        /\ loadMutableStateForTransferTask weCtx task = Ok ms
        /\ out.1 = deleteResult task weCtx ms stage
        /\ out.2 = lockRequest task :: before
                   ++ [deleteCall task weCtx ms stage;
                       EvRelease out.1; EvCancel]
        /\ deletions before = 0%nat
        /\ released before = []).
Proof.
  intros out. subst out.
  destruct (lockResult task) as [weCtx|e] eqn:Hlock.
  2:{ rewrite (deleteExecution_without_lock _ _ _ _ Hlock).
      unfold deletions. simpl. split; [lia | discriminate]. }
  destruct (loadMutableStateForTransferTask weCtx task) as [ms|e] eqn:Hload.
  2:{ rewrite (deleteExecution_without_state _ _ _ _ _ Hlock Hload).
      unfold deletions. simpl. split; [lia | discriminate]. }
  rewrite (deleteExecution_loaded _ _ _ _ _ _ _ _ Hlock Hload). cbv zeta.
  destruct (guard_queries ensure ms weCtx) as [l Hq]. rewrite Hq.
  destruct (queries_only l) as (Hl1 & Hl2 & _).
  unfold deletions. simpl. rewrite List.filter_app, Hl1. simpl.
  repeat match goal with
    | |- context [if ?b then _ else _] => destruct b; simpl
    | |- context [match ?x with _ => _ end] => destruct x eqn:?; simpl
    end;
    (split; [lia|]); try discriminate; intros _;
    exists weCtx, ms, (EvLoadMutableState weCtx task :: queriesOf l);
    (split; [reflexivity|]); (split; [exact Hload|]); (split; [reflexivity|]);
    (split; [simpl; rewrite <- ?app_assoc; reflexivity|]);
    (split; [simpl; now rewrite Hl1 | exact Hl2]).
Qed.

(** X6.  With the guard enabled and a close task that the transfer
    queue state shows as acked, the guard lets the task through:
    [deleteExecution] asks for the transfer queue state once and then
    returns what it returns with the guard disabled, invoking the
    deletion primitive as often. *)
Theorem deleteExecution_close_task_acked
    {shardContext : ShardContext} task stage weCtx ms qs :
  lockResult task = Ok weCtx ->
  loadMutableStateForTransferTask weCtx task = Ok ms ->
  CloseTransferTaskId ms <> 0 ->
  GetQueueState CategoryTransfer = Some qs ->
  IsTaskAcked {| cet_WorkflowKey := GetWorkflowKey weCtx;
                 cet_TaskID := CloseTransferTaskId ms |} qs = true ->
  let guarded := run (deleteExecution GetWorkflowKey ArchetypeAny EmptyVersion
                        task true stage) in
  let unguarded := run (deleteExecution GetWorkflowKey ArchetypeAny EmptyVersion
                          task false stage) in
  guarded.1 = unguarded.1
  /\ deletions guarded.2 = deletions unguarded.2
  /\ queueStateQueries guarded.2 = [CategoryTransfer].
Proof.
  intros Hlock Hload Hnz Hqs Hacked guarded unguarded.
  subst guarded unguarded.
  rewrite !(deleteExecution_loaded _ _ _ _ _ _ _ _ Hlock Hload). cbv zeta.
  assert (Hrun : run (isCloseExecutionTaskPending
                        (Archetype := Archetype) (Stage := Stage)
                        GetWorkflowKey ms weCtx)
                 = (false, [EvGetQueueState CategoryTransfer])).
  { unfold run, isCloseExecutionTaskPending, call_GetQueueState, bind, emit, ret.
    destruct (Z.eqb_spec (CloseTransferTaskId ms) 0) as [|_]; [contradiction|].
    simpl. rewrite Hqs, Hacked. reflexivity. }
  rewrite Hrun. unfold deletions. simpl.
  repeat match goal with
    | |- context [if ?b then _ else _] => destruct b; simpl
    | |- context [match ?x with _ => _ end] => destruct x; simpl
    end; auto.
Qed.

End DeletionExtras.

Lemma deleteExecution_lock_failed_witness :
  let out := run (deleteExecution
                    (cache := Scenario.cache_busy)
                    (shardContext := Scenario.queueState 50)
                    (mutableStateLoader := Scenario.loader (Scenario.closed 100 3))
                    (workflowDeleteManager := Scenario.deleter)
                    Scenario.workflowKeyOf tt 0
                    (Scenario.deleteTask (Some 3)) true 0%nat) in
  out = (Some (OtherError "lock busy"),
         [EvGetOrCreateChasmEntity
            "ns1" {| WorkflowId := "wf1"; RunId := "run1" |} tt PriorityLow;
          EvCancel])
  /\ released out.2 = []
  /\ deletions out.2 = 0%nat
  /\ queueStateQueries out.2 = [].
Proof.
  apply (@deleteExecution_lock_failed
           unit WorkflowKey unit nat Scenario.workflowKeyOf tt 0
           Scenario.cache_busy (Scenario.loader (Scenario.closed 100 3))
           Scenario.deleter (Scenario.queueState 50)
           (Scenario.deleteTask (Some 3)) true 0%nat).
  reflexivity.
Defined.

Lemma deleteExecution_load_failed_witness :
  let out := run (deleteExecution
                    (cache := Scenario.cache)
                    (shardContext := Scenario.queueState 50)
                    (mutableStateLoader := Scenario.loader_failing)
                    (workflowDeleteManager := Scenario.deleter)
                    Scenario.workflowKeyOf tt 0
                    (Scenario.deleteTask (Some 3)) true 0%nat) in
  out = (Some (OtherError "shard ownership lost"),
         [EvGetOrCreateChasmEntity
            "ns1" {| WorkflowId := "wf1"; RunId := "run1" |} tt PriorityLow;
          EvLoadMutableState Scenario.weCtx1 (Scenario.deleteTask (Some 3));
          EvRelease (Some (OtherError "shard ownership lost"));
          EvCancel])
  /\ deletions out.2 = 0%nat
  /\ queueStateQueries out.2 = [].
Proof.
  apply (@deleteExecution_load_failed
           unit WorkflowKey unit nat Scenario.workflowKeyOf tt 0
           Scenario.cache Scenario.loader_failing
           Scenario.deleter (Scenario.queueState 50)
           (Scenario.deleteTask (Some 3)) true 0%nat Scenario.weCtx1);
    reflexivity.
Defined.

Lemma deleteExecution_close_version_unreadable_witness :
  let out := run (deleteExecution
                    (cache := Scenario.cache)
                    (shardContext := Scenario.queueState 200)
                    (mutableStateLoader := Scenario.loader Cases.closedUnreadable)
                    (workflowDeleteManager := Scenario.deleter)
                    Scenario.workflowKeyOf tt 0
                    (Scenario.deleteTask (Some 3)) true 0%nat) in
  out.1 = Some (OtherError "close version not found")
  /\ deletions out.2 = 0%nat
  /\ released out.2 = [Some (OtherError "close version not found")].
Proof.
  apply (@deleteExecution_close_version_unreadable
           unit WorkflowKey unit nat Scenario.workflowKeyOf tt 0
           Scenario.cache (Scenario.loader Cases.closedUnreadable)
           Scenario.deleter (Scenario.queueState 200)
           (Scenario.deleteTask (Some 3)) true 0%nat Scenario.weCtx1
           Cases.closedUnreadable 3);
    try reflexivity.
  lia.
Defined.

Lemma deleteExecution_deletes_under_lock_witness :
  let out := run (deleteExecution
                    (cache := Scenario.cache)
                    (shardContext := Scenario.queueState 200)
                    (mutableStateLoader := Scenario.loader (Scenario.closed 100 3))
                    (workflowDeleteManager := Scenario.deleter)
                    Scenario.workflowKeyOf tt 0
                    (Scenario.deleteTask (Some 3)) true 0%nat) in
  exists weCtx ms before,
    out.1 = DeleteWorkflowExecution
              (DeleteManager := Scenario.deleter)
              "ns1" {| WorkflowId := "wf1"; RunId := "run1" |} weCtx ms 0%nat
    /\ out.2
       = EvGetOrCreateChasmEntity
           "ns1" {| WorkflowId := "wf1"; RunId := "run1" |} tt PriorityLow
         :: before
         ++ [EvDeleteWorkflowExecution
               "ns1" {| WorkflowId := "wf1"; RunId := "run1" |} weCtx ms 0%nat;
             EvRelease out.1; EvCancel].
Proof.
  destruct (@deleteExecution_deletes_under_lock
              unit WorkflowKey unit nat Scenario.workflowKeyOf tt 0
              Scenario.cache (Scenario.loader (Scenario.closed 100 3))
              Scenario.deleter (Scenario.queueState 200)
              (Scenario.deleteTask (Some 3)) true 0%nat) as [_ Hdel].
  destruct (Hdel eq_refl) as (weCtx & ms & before & _ & _ & Hres & Htr & _).
  exists weCtx, ms, before. split; [exact Hres | exact Htr].
Defined.

Lemma deleteExecution_close_task_acked_witness :
  let guarded := run (deleteExecution
                        (cache := Scenario.cache)
                        (shardContext := Scenario.queueState 200)
                        (mutableStateLoader := Scenario.loader (Scenario.closed 100 3))
                        (workflowDeleteManager := Scenario.deleter)
                        Scenario.workflowKeyOf tt 0
                        (Scenario.deleteTask (Some 3)) true 0%nat) in
  let unguarded := run (deleteExecution
                          (cache := Scenario.cache)
                          (shardContext := Scenario.queueState 200)
                          (mutableStateLoader := Scenario.loader (Scenario.closed 100 3))
                          (workflowDeleteManager := Scenario.deleter)
                          Scenario.workflowKeyOf tt 0
                          (Scenario.deleteTask (Some 3)) false 0%nat) in
  guarded.1 = unguarded.1
  /\ deletions guarded.2 = deletions unguarded.2
  /\ queueStateQueries guarded.2 = [CategoryTransfer].
Proof.
  apply (@deleteExecution_close_task_acked
           unit WorkflowKey unit nat Scenario.workflowKeyOf tt 0
           Scenario.cache (Scenario.loader (Scenario.closed 100 3))
           Scenario.deleter (Scenario.queueState 200)
           (Scenario.deleteTask (Some 3)) 0%nat Scenario.weCtx1
           (Scenario.closed 100 3)
           {| ackLevel := 200; ackedExceptions := ∅ |});
    try reflexivity.
  simpl. lia.
Defined.

(** ** More about the dispatcher *)

Section DispatcherExtras.

Context {TaskVersionDirective Priority TransactionPolicy Empty : Type}.
Variable GetUseAssignmentRules : TaskVersionDirective -> option Empty.
Context {matchingRawClient : @MatchingRawClient TaskVersionDirective Priority}
        {shardContext : ShardIdentity}
        {buildIdUpdater : @BuildIdUpdater TransactionPolicy}.

(** X7.  Whatever matching answers, a push makes exactly one dispatch
    call, of its own kind and with the request built from its arguments
    (no retry, no second attempt); it logs or updates the mutable state
    at most once in total, never both; and a log line is only written
    when the push returns a not-found error. *)
Theorem push_dispatches_once :
  (forall task timeout directive priority policy,
      let out := run (pushActivity GetUseAssignmentRules
                        task timeout directive priority policy) in
      sentActivityTaskRequests out.2
      = [addActivityTaskRequest task timeout directive priority]
      /\ sentWorkflowTaskRequests out.2 = []
      /\ (length (logged out.2) + length (updates out.2) <= 1)%nat
      /\ (logged out.2 <> [] -> isNotFound out.1 = true))
  /\ (forall task tq timeout directive priority policy,
         let out := run (pushWorkflowTask GetUseAssignmentRules
                           task tq timeout directive priority policy) in
         sentWorkflowTaskRequests out.2
         = [addWorkflowTaskRequest task tq timeout directive priority]
         /\ sentActivityTaskRequests out.2 = []
         /\ (length (logged out.2) + length (updates out.2) <= 1)%nat
         /\ (logged out.2 <> [] -> isNotFound out.1 = true)).
Proof.
  split.
  - intros task timeout directive priority policy out. subst out.
    destruct (AddActivityTask
                (addActivityTaskRequest task timeout directive priority))
      as [resp|e] eqn:Hcall.
    + rewrite (pushActivity_dispatched _ _ _ _ _ _ _ Hcall).
      destruct (GetUseAssignmentRules directive); simpl;
        (split; [|split; [|split]];
         [reflexivity | reflexivity | simpl; lia
         | intros Hlog; first [reflexivity | now contradiction Hlog]]).
    + rewrite (pushActivity_failed _ _ _ _ _ _ _ Hcall).
      destruct e; simpl; (split; [|split; [|split]];
         [reflexivity | reflexivity | simpl; lia
         | intros Hlog; first [reflexivity | now contradiction Hlog]]).
  - intros task tq timeout directive priority policy out. subst out.
    destruct (AddWorkflowTask
                (addWorkflowTaskRequest task tq timeout directive priority))
      as [resp|e] eqn:Hcall.
    + rewrite (pushWorkflowTask_dispatched _ _ _ _ _ _ _ _ Hcall).
      destruct (GetUseAssignmentRules directive); simpl;
        (split; [|split; [|split]];
         [reflexivity | reflexivity | simpl; lia
         | intros Hlog; first [reflexivity | now contradiction Hlog]]).
    + rewrite (pushWorkflowTask_failed _ _ _ _ _ _ _ _ Hcall).
      destruct e; simpl; (split; [|split; [|split]];
         [reflexivity | reflexivity | simpl; lia
         | intros Hlog; first [reflexivity | now contradiction Hlog]]).
Qed.

End DispatcherExtras.

Lemma push_dispatches_once_witness :
  let out := run (pushActivity Scenario.useAssignmentRules
                    (matchingRawClient := Scenario.matching_not_found)
                    (shardContext := Scenario.shard)
                    (buildIdUpdater := Scenario.updater)
                    Scenario.activity42 10000000000 true tt tt) in
  logged out.2 <> [] /\ isNotFound out.1 = true.
Proof.
  split; [discriminate|].
  apply (proj1 (@push_dispatches_once bool unit unit unit
                  Scenario.useAssignmentRules Scenario.matching_not_found
                  Scenario.shard Scenario.updater)).
  discriminate.
Defined.

(** ** More about the version-sync fan-out *)

Section FanoutExtras.

Context {TaskQueueType DeploymentVersion Timestamp Percentage : Type}.
Context {matchingClient :
          @MatchingClient TaskQueueType DeploymentVersion Timestamp Percentage}.
Variable taskQueueSyncs :
  list (@SyncUserData TaskQueueType DeploymentVersion Timestamp Percentage).
Variable request_of :
  @SyncUserData TaskQueueType DeploymentVersion Timestamp Percentage ->
  @SyncDeploymentUserDataRequest TaskQueueType DeploymentVersion Timestamp Percentage.

(** As many values have been received as goroutines have exited. *)
Lemma received_count s :
  rtc (step taskQueueSyncs request_of) (init taskQueueSyncs) s ->
  length (received s) = sum_list_with exitedN (goroutines s).
Proof.
  revert s. apply rtc_ind_r; [reflexivity|].
  intros s s' _ Hstep IH.
  destruct Hstep as
    [ e rest gs m er rcv
    | gs m er rcv
    | i sd p gs m er rcv Hi
    | i sd e p gs m er rcv Hi
    | i sd res p gs m er rcv Hi
    | i sd e k gs m er rcv Hi
    | gs m er rcv ];
    simpl in *;
    try (match goal with
         | |- context [sum_list_with exitedN (<[i:=?g']> gs)] =>
             pose proof (sum_list_with_insert exitedN gs i _ g' Hi) as Hsum;
             unfold exitedN in Hsum at 2 4; simpl in Hsum
         end);
    rewrite ?sum_list_with_app, ?length_app; simpl; lia.
Qed.

(** X8.  When the activity leaves its receive loop, one goroutine has
    been launched for each element of the slice, in order, every one of
    them has delivered its result and exited, and exactly that many
    values have been received: an early error does not make the
    activity return before the other goroutines are done. *)
Theorem fan_out_waits_for_all s :
  rtc (step taskQueueSyncs request_of) (init taskQueueSyncs) s ->
  main s = Finished ->
  syncData <$> goroutines s = taskQueueSyncs
  /\ Forall (fun g => at_phase g = Exited) (goroutines s)
  /\ length (received s) = length taskQueueSyncs.
Proof.
  intros Hrun Hfin.
  pose proof (received_count s Hrun) as Hcount.
  destruct (invariant_reachable _ _ s Hrun) as [Hgs Hmain _ _ _].
  rewrite Hfin in Hmain. destruct Hmain as [Hlen Hall].
  split; [|split].
  - apply list_eq. intros i. rewrite list_lookup_fmap.
    destruct (goroutines s !! i) as [g|] eqn:Hg; simpl.
    + destruct (Hgs _ _ Hg) as [Hsd _]. now rewrite Hsd.
    + symmetry. apply lookup_ge_None. apply lookup_ge_None in Hg. lia.
  - apply Forall_lookup. intros i g Hg.
    pose proof (all_exited _ Hall i g Hg) as Hex.
    unfold exited in Hex. now destruct (at_phase g).
  - lia.
Qed.

Lemma step_monotone s s' :
  step taskQueueSyncs request_of s s' ->
  (forall e, err s = Some e -> err s' = Some e)
  /\ (forall name v,
         maxVersionByName s !! name = Some v ->
         exists v', maxVersionByName s' !! name = Some v' /\ v <= v')
  /\ received s `prefix_of` received s'.
Proof.
  intros Hstep.
  destruct Hstep as
    [ e rest gs m er rcv
    | gs m er rcv
    | i sd p gs m er rcv Hi
    | i sd e p gs m er rcv Hi
    | i sd res p gs m er rcv Hi
    | i sd e k gs m er rcv Hi
    | gs m er rcv ];
    simpl; (split; [|split]); eauto;
    try (intros name v Hv; exists v; split; [exact Hv | lia]).
  - intros name v Hv. destruct (decide (name = sud_Name sd)) as [->|Hne].
    + rewrite lookup_insert_eq, Hv. simpl. eexists. split; [reflexivity | lia].
    + rewrite lookup_insert_ne by congruence. exists v. split; [exact Hv | lia].
  - intros e' ->. reflexivity.
  - now apply prefix_app_r.
Qed.

(** X9.  While the fan-out runs, what it has gathered only grows: once
    [err] holds an error it keeps that very error, a version recorded
    for a task queue is never lowered or removed, and the values
    received so far stay a prefix of those received later. *)
Theorem fan_out_monotone s s' :
  rtc (step taskQueueSyncs request_of) s s' ->
  (forall e, err s = Some e -> err s' = Some e)
  /\ (forall name v,
         maxVersionByName s !! name = Some v ->
         exists v', maxVersionByName s' !! name = Some v' /\ v <= v')
  /\ received s `prefix_of` received s'.
Proof.
  induction 1 as [s | s s1 s' Hstep _ (IHe & IHm & IHr)].
  - split; [auto | split; [|reflexivity]].
    intros name v Hv. exists v. split; [exact Hv | lia].
  - destruct (step_monotone _ _ Hstep) as (He & Hm & Hr).
    split; [|split].
    + auto.
    + intros name v Hv. destruct (Hm _ _ Hv) as (v1 & Hv1 & Hle).
      destruct (IHm _ _ Hv1) as (v' & Hv' & Hle').
      exists v'. split; [exact Hv' | lia].
    + now transitivity (received s1).
Qed.

(** With nothing to sync the fan-out launches no goroutine and returns
    the empty map and no error. *)
Lemma fan_out_of_nothing res :
  taskQueueSyncs = [] ->
  fans_out taskQueueSyncs request_of res ->
  res = (Some {| TaskQueueMaxVersions := ∅ |}, None)
  /\ forall s,
      rtc (step taskQueueSyncs request_of) (init taskQueueSyncs) s ->
      goroutines s = [].
Proof.
  intros Hnil Hrun. split.
  - destruct (fans_out_reduced _ _ _ Hrun) as (Hiff & _ & Hok).
    assert (Hnone : res.2 = None).
    { destruct (res.2) as [e|] eqn:He; [|reflexivity].
      assert (Hne : Some e <> None) by discriminate.
      apply Hiff in Hne as (e' & i & sd & Hi & _).
      rewrite Hnil in Hi. discriminate. }
    destruct (Hok Hnone) as ([m] & Hresp & Hmax). simpl in Hmax.
    destruct res as [r e]. simpl in *. subst r e. do 3 f_equal.
    apply map_eq. intros name. rewrite lookup_empty.
    specialize (Hmax name). destruct (m !! name) as [v|]; [|reflexivity].
    destruct Hmax as ((w & i & sd & r & Hi & _) & _).
    rewrite Hnil in Hi. discriminate.
  - intros s Hs. destruct (invariant_reachable _ _ s Hs) as [_ Hmain _ _ _].
    rewrite Hnil in Hmain.
    destruct (main s) as [rest|k|].
    + destruct Hmain as [Happ _]. symmetry in Happ.
      apply app_eq_nil in Happ as [Hf _]. now apply fmap_nil_inv in Hf.
    + destruct Hmain as [Hlen _]. now apply nil_length_inv.
    + destruct Hmain as [Hlen _]. now apply nil_length_inv.
Qed.

End FanoutExtras.

Section VersionSyncExtras.

Context {TaskQueueType DeploymentVersion Timestamp Percentage : Type}.
Variable namespaceID : string.
Context {matchingClient :
          @MatchingClient TaskQueueType DeploymentVersion Timestamp Percentage}
        {deploymentClient : @DeploymentClient TaskQueueType}.

(** X10.  With nothing to sync, an empty Sync list or a version without
    task queues, the activities return the empty map and no error. *)
Theorem version_sync_of_nothing :
  (forall input res,
      in_Sync input = [] ->
      SyncDeploymentVersionUserDataFromWorkerDeployment namespaceID input res ->
      res = (Some {| TaskQueueMaxVersions := ∅ |}, None))
  /\ (forall input res,
         DescribeVersion (in_CurrentVersion input) = Ok [] ->
         SyncUnversionedRamp namespaceID input res ->
         res = (Some {| TaskQueueMaxVersions := ∅ |}, None)).
Proof.
  split.
  - intros input res Hnil Hrun.
    now apply (fan_out_of_nothing _ _ res Hnil Hrun).
  - intros input res Hdesc Hrun.
    destruct Hrun as [e Hfail | infos res Hdesc' Hrun]; [congruence|].
    assert (infos = []) as -> by congruence.
    now apply (fan_out_of_nothing _ _ res eq_refl Hrun).
Qed.

(** X11.  When DescribeVersion fails, SyncUnversionedRamp returns that
    error and no response, whatever matching would have answered. *)
Theorem SyncUnversionedRamp_describe_failed input res e :
  DescribeVersion (in_CurrentVersion input) = Err e ->
  SyncUnversionedRamp namespaceID input res ->
  res = (None, Some e).
Proof.
  intros Hdesc Hrun.
  destruct Hrun as [e' Hfail | infos res Hdesc' Hrun]; congruence.
Qed.

End VersionSyncExtras.

(** The run of a fan-out over an empty slice. *)
Lemma empty_fan_out
    (request_of : @SyncUserData bool string Z Z -> SyncDeploymentUserDataRequest) :
  fans_out (matchingClient := Scenario.matching_versions) [] request_of
           (Some {| TaskQueueMaxVersions := ∅ |}, None).
Proof.
  eexists. split.
  - unfold init.
    eapply rtc_l; [apply step_launched|].
    eapply rtc_l; [apply step_received|].
    apply rtc_refl.
  - split; reflexivity.
Qed.

Lemma version_sync_of_nothing_witness :
  exists res,
    SyncDeploymentVersionUserDataFromWorkerDeployment
      (matchingClient := Scenario.matching_versions)
      "ns1" Cases.nothingToSync res
    /\ res = (Some {| TaskQueueMaxVersions := ∅ |}, None).
Proof.
  eexists. split; [apply empty_fan_out|].
  apply (proj1 (@version_sync_of_nothing
                  bool string Z Z "ns1" Scenario.matching_versions
                  Cases.describe_nothing)
               Cases.nothingToSync);
    [reflexivity | apply empty_fan_out].
Defined.

Lemma SyncUnversionedRamp_describe_failed_witness :
  exists res,
    SyncUnversionedRamp
      (matchingClient := Scenario.matching_versions)
      (deploymentClient := Cases.describe_failing)
      "ns1" Cases.rampInput res
    /\ res = (None, Some (OtherError "version not found")).
Proof.
  assert (Hrun : SyncUnversionedRamp
                   (matchingClient := Scenario.matching_versions)
                   (deploymentClient := Cases.describe_failing)
                   "ns1" Cases.rampInput
                   (None, Some (OtherError "version not found")))
    by (apply ramp_describe_failed; reflexivity).
  eexists. split; [exact Hrun|].
  apply (@SyncUnversionedRamp_describe_failed
           bool string Z Z "ns1" Scenario.matching_versions
           Cases.describe_failing Cases.rampInput _ _ eq_refl Hrun).
Defined.

Lemma fan_out_waits_for_all_witness :
  exists s,
    rtc (step (matchingClient := Scenario.matching_versions)
           Scenario.syncs (update_request "ns1"))
        (init Scenario.syncs) s
    /\ syncData <$> goroutines s = Scenario.syncs
    /\ Forall (fun g => at_phase g = Exited) (goroutines s)
    /\ length (received s) = 2%nat.
Proof.
  eexists. split.
  - unfold init. simpl.
    eapply rtc_l; [apply step_go|].
    eapply rtc_l; [apply step_go|].
    eapply rtc_l; [apply step_launched|].
    eapply rtc_l; [apply (step_call _ _ 1%nat); reflexivity|].
    eapply rtc_l; [apply (step_call _ _ 0%nat); reflexivity|].
    eapply rtc_l; [apply (step_update _ _ 1%nat); reflexivity|].
    eapply rtc_l; [apply (step_receive _ _ 1%nat); reflexivity|].
    eapply rtc_l; [apply (step_update _ _ 0%nat); reflexivity|].
    eapply rtc_l; [apply (step_receive _ _ 0%nat); reflexivity|].
    eapply rtc_l; [apply step_received|].
    apply rtc_refl.
  - apply (@fan_out_waits_for_all bool string Z Z
             Scenario.matching_versions Scenario.syncs (update_request "ns1"));
      [|reflexivity].
    unfold init. simpl.
    eapply rtc_l; [apply step_go|].
    eapply rtc_l; [apply step_go|].
    eapply rtc_l; [apply step_launched|].
    eapply rtc_l; [apply (step_call _ _ 1%nat); reflexivity|].
    eapply rtc_l; [apply (step_call _ _ 0%nat); reflexivity|].
    eapply rtc_l; [apply (step_update _ _ 1%nat); reflexivity|].
    eapply rtc_l; [apply (step_receive _ _ 1%nat); reflexivity|].
    eapply rtc_l; [apply (step_update _ _ 0%nat); reflexivity|].
    eapply rtc_l; [apply (step_receive _ _ 0%nat); reflexivity|].
    eapply rtc_l; [apply step_received|].
    apply rtc_refl.
Defined.

Lemma fan_out_monotone_witness :
  exists v',
    maxVersionByName Cases.afterSecondUpdate !! "tq-a" = Some v' /\ 4 <= v'.
Proof.
  assert (Hrun : rtc (step (matchingClient := Scenario.matching_versions)
                        Scenario.syncs (update_request "ns1"))
                     Cases.afterFirstUpdate Cases.afterSecondUpdate).
  { unfold Cases.afterFirstUpdate, Cases.afterSecondUpdate.
    eapply rtc_l; [apply (step_call _ _ 1%nat); reflexivity|].
    eapply rtc_l; [apply (step_update _ _ 1%nat); reflexivity|].
    apply rtc_refl. }
  apply (proj1 (proj2 (@fan_out_monotone bool string Z Z
                         Scenario.matching_versions Scenario.syncs
                         (update_request "ns1")
                         Cases.afterFirstUpdate Cases.afterSecondUpdate Hrun))
               "tq-a" 4).
  apply lookup_singleton_eq.
Defined.

(** ** CheckUnversionedRampUserDataPropagation *)

Section CheckFacts.

Variable namespaceID : string.
Context {propagationClient : PropagationClient}.
Variable entries : list (string * Z).

Local Abbreviation entryOf := (fun c : checker => (chk_name c, chk_version c)).

Lemma check_invariant_init :
  check_invariant namespaceID entries (check_init entries).
Proof.
  split; simpl.
  - intros i c Hi. discriminate.
  - now split.
  - reflexivity.
  - intros e. split.
    + intros Hin. now apply not_elem_of_nil in Hin.
    + intros (i & c & Hi & _). discriminate.
  - reflexivity.
Qed.

Lemma check_main_insert (cs : list checker) i c c' (p : check_pc) :
  cs !! i = Some c ->
  entryOf c' = entryOf c ->
  goneN c' = goneN c ->
  match p with
  | Ranging rest =>
      entries = (entryOf <$> cs) ++ rest /\ sum_list_with goneN cs = 0%nat
  | Collecting k =>
      length cs = length entries
      /\ (k + sum_list_with goneN cs)%nat = length cs
  | Returning =>
      length cs = length entries /\ sum_list_with goneN cs = length cs
  end ->
  match p with
  | Ranging rest =>
      entries = (entryOf <$> <[i:=c']> cs) ++ rest
      /\ sum_list_with goneN (<[i:=c']> cs) = 0%nat
  | Collecting k =>
      length (<[i:=c']> cs) = length entries
      /\ (k + sum_list_with goneN (<[i:=c']> cs))%nat = length (<[i:=c']> cs)
  | Returning =>
      length (<[i:=c']> cs) = length entries
      /\ sum_list_with goneN (<[i:=c']> cs) = length (<[i:=c']> cs)
  end.
Proof.
  intros Hi Hentry Hgone Hmain.
  pose proof (sum_list_with_insert goneN cs i c c' Hi) as Hsum.
  rewrite length_insert.
  assert (Hfmap : entryOf <$> <[i:=c']> cs = entryOf <$> cs).
  { rewrite list_fmap_insert, Hentry. apply list_insert_id.
    rewrite list_lookup_fmap, Hi. reflexivity. }
  rewrite Hfmap.
  destruct p; destruct Hmain as [H1 H2]; (split; [exact H1 | lia]).
Qed.

Lemma check_step_invariant s s' :
  check_invariant namespaceID entries s ->
  check_step namespaceID entries s s' ->
  check_invariant namespaceID entries s'.
Proof.
  intros [Hcs Hmain Herr Hrcv Hcount] Hstep.
  destruct Hstep as
    [ n v rest cs er rcv
    | cs er rcv
    | i n v p cs er rcv Hi
    | i n v e k cs er rcv Hi
    | cs er rcv ];
    simpl in *.
  - (* go *)
    destruct Hmain as [Hentries Hnone].
    split; simpl.
    + intros j c Hj. apply lookup_snoc_Some in Hj as [[_ Hj] | [-> <-]]; auto.
      split; [|exact I]. simpl. rewrite Hentries.
      rewrite lookup_app_r by (rewrite length_fmap; lia).
      rewrite length_fmap, Nat.sub_diag. reflexivity.
    + rewrite fmap_app, <- app_assoc, sum_list_with_app. simpl.
      split; [exact Hentries | cbn; lia].
    + exact Herr.
    + intros e'. rewrite Hrcv. rewrite exists_lookup_snoc.
      unfold check_failed at 3. simpl. intuition discriminate.
    + rewrite sum_list_with_app. cbn. lia.
  - (* all goroutines launched *)
    destruct Hmain as [Hentries Hnone].
    split; simpl; auto.
    assert (Hlen : length cs = length entries).
    { rewrite Hentries, app_nil_r, length_fmap. reflexivity. }
    split; [exact Hlen | lia].
  - (* the call returns *)
    pose proof (Hcs _ _ Hi) as [Hentry _]. simpl in Hentry.
    pose proof (sum_list_with_insert goneN cs i _
                  {| chk_name := n; chk_version := v;
                     chk_phase :=
                       Reporting
                         (CheckTaskQueueUserDataPropagation i
                            {| creq_NamespaceId := namespaceID;
                               creq_TaskQueue := n; creq_Version := v |}) |}
                  Hi) as Hsum.
    unfold goneN in Hsum at 2 4. simpl in Hsum.
    split; simpl.
    + intros j c Hj.
      apply list_lookup_insert_Some in Hj as [(-> & <- & _) | (_ & Hj)]; auto.
      now split.
    + now apply check_main_insert
        with (c := {| chk_name := n; chk_version := v; chk_phase := Waiting |}).
    + exact Herr.
    + intros e'. rewrite Hrcv.
      rewrite (exists_lookup_insert _ _ _ _ _ Hi), (exists_lookup_split _ _ _ _ Hi).
      unfold check_failed at 1 3. simpl. intuition discriminate.
    + lia.
  - (* a send meets a receive *)
    pose proof (Hcs _ _ Hi) as [Hentry Hans].
    unfold check_request in Hans. simpl in Hentry, Hans.
    pose proof (sum_list_with_insert goneN cs i _
                  {| chk_name := n; chk_version := v; chk_phase := Gone |}
                  Hi) as Hsum.
    unfold goneN in Hsum at 2 4. simpl in Hsum.
    split; simpl.
    + intros j c Hj.
      apply list_lookup_insert_Some in Hj as [(-> & <- & _) | (_ & Hj)]; auto.
      now split.
    + rewrite length_insert. split; [tauto | lia].
    + rewrite first_error_snoc. now rewrite Herr.
    + intros e'. rewrite elem_of_app, list_elem_of_singleton, Hrcv.
      rewrite (exists_lookup_insert _ _ _ _ _ Hi), (exists_lookup_split _ _ _ _ Hi).
      unfold check_failed at 1 3. simpl. subst e.
      unfold check_request. simpl.
      split.
      * intros [[[H _] | H] | Heq]; [discriminate | now right |].
        left. split; [reflexivity | now symmetry].
      * intros [[_ Hfail] | H]; [|left; now right].
        right. now symmetry.
    + rewrite length_app. simpl. lia.
  - (* the receive loop ends *)
    split; simpl; auto.
Qed.

Lemma check_invariant_reachable s :
  rtc (check_step namespaceID entries) (check_init entries) s ->
  check_invariant namespaceID entries s.
Proof.
  revert s. apply rtc_ind_r.
  - apply check_invariant_init.
  - intros s s' _ Hstep Hinv. now apply check_step_invariant with s.
Qed.

Lemma check_step_measure s s' :
  check_step namespaceID entries s s' ->
  (check_measure entries s' < check_measure entries s)%nat.
Proof.
  intros Hstep.
  destruct Hstep as
    [ n v rest cs er rcv
    | cs er rcv
    | i n v p cs er rcv Hi
    | i n v e k cs er rcv Hi
    | cs er rcv ];
    unfold check_measure; simpl;
    try (match goal with
         | |- context [sum_list_with check_weight (<[i:=?c']> cs)] =>
             pose proof (sum_list_with_insert check_weight cs i _ c' Hi) as Hsum;
             unfold check_weight in Hsum at 2 4; simpl in Hsum
         end);
    rewrite ?sum_list_with_app; simpl; try lia.
Qed.

Lemma goneN_le (cs : list checker) :
  (sum_list_with goneN cs <= length cs)%nat.
Proof.
  induction cs as [|c cs IH]; simpl; [lia|].
  unfold goneN at 1. destruct (chk_phase c); lia.
Qed.

Lemma all_gone (cs : list checker) :
  sum_list_with goneN cs = length cs ->
  forall i c, cs !! i = Some c -> chk_phase c = Gone.
Proof.
  induction cs as [|a cs IH]; simpl; intros Hsum i c Hi; [discriminate|].
  pose proof (goneN_le cs) as Hle.
  unfold goneN in Hsum at 1.
  destruct i as [|i]; simpl in Hi.
  - injection Hi as <-. destruct (chk_phase a); [lia | lia | reflexivity].
  - apply (IH ltac:(destruct (chk_phase a); lia) i c Hi).
Qed.

Lemma some_not_gone (cs : list checker) :
  (sum_list_with goneN cs < length cs)%nat ->
  exists i c, cs !! i = Some c /\ chk_phase c <> Gone.
Proof.
  induction cs as [|a cs IH]; simpl; intros Hsum; [lia|].
  destruct (chk_phase a) eqn:Ha.
  - exists 0%nat, a. split; [reflexivity | congruence].
  - exists 0%nat, a. split; [reflexivity | congruence].
  - unfold goneN in Hsum at 1. rewrite Ha in Hsum.
    destruct (IH ltac:(lia)) as (i & c & Hi & Hc).
    exists (S i), c. auto.
Qed.

Lemma check_progress s :
  check_invariant namespaceID entries s ->
  chk_main s <> Returning ->
  exists s', check_step namespaceID entries s s'.
Proof.
  intros [_ Hmain _ _ _] Hnot.
  destruct s as [p cs er rcv]; simpl in *.
  destruct p as [[|[n v] rest] | [|k] | ]; [| | | |contradiction].
  - eexists. apply check_launched.
  - eexists. apply check_go.
  - eexists. apply check_received.
  - destruct Hmain as [_ Hk].
    destruct (some_not_gone cs ltac:(lia)) as (i & [n v ph] & Hi & Hph).
    simpl in Hph.
    destruct ph as [|e|]; [| |contradiction].
    + eexists. apply (check_call _ _ i n v _ _ _ _ Hi).
    + eexists. apply (check_receive _ _ i n v e _ _ _ _ Hi).
Qed.

Lemma check_terminates n s :
  (check_measure entries s <= n)%nat ->
  check_invariant namespaceID entries s ->
  exists s',
    rtc (check_step namespaceID entries) s s' /\ chk_main s' = Returning.
Proof.
  revert s. induction n as [|n IH]; intros s Hn Hinv.
  - destruct s as [[rest|k|] cs er rcv];
      unfold check_measure in Hn; simpl in Hn; try lia.
    eexists. split; [apply rtc_refl | reflexivity].
  - assert (Hdec : chk_main s = Returning \/ chk_main s <> Returning)
      by (destruct (chk_main s); auto).
    destruct Hdec as [Hfin|Hnot].
    + exists s. split; [apply rtc_refl | exact Hfin].
    + destruct (check_progress s Hinv Hnot) as [s1 Hstep].
      pose proof (check_step_measure _ _ Hstep) as Hlt.
      destruct (IH s1 ltac:(lia) (check_step_invariant _ _ Hinv Hstep))
        as (s' & Hrun & Hfin).
      exists s'. split; [|exact Hfin]. now apply rtc_l with s1.
Qed.

(** What a finished run of the check has done and returns. *)
Lemma check_finished s :
  rtc (check_step namespaceID entries) (check_init entries) s ->
  chk_main s = Returning ->
  entryOf <$> checkers s = entries
  /\ Forall (fun c => chk_phase c = Gone) (checkers s)
  /\ length (chk_received s) = length entries
  /\ (chk_err s <> None <-> exists e, check_fails namespaceID entries e)
  /\ (forall e, chk_err s = Some e -> check_fails namespaceID entries e).
Proof.
  intros Hrun Hfin.
  destruct (check_invariant_reachable s Hrun) as [Hcs Hmain Herr Hrcv Hcount].
  rewrite Hfin in Hmain. destruct Hmain as [Hlen Hall].
  pose proof (all_gone _ Hall) as Hgone.
  assert (Hentries : entryOf <$> checkers s = entries).
  { apply list_eq. intros i. rewrite list_lookup_fmap.
    destruct (checkers s !! i) as [c|] eqn:Hc; simpl.
    + destruct (Hcs _ _ Hc) as [He _]. now rewrite He.
    + symmetry. apply lookup_ge_None. apply lookup_ge_None in Hc. lia. }
  assert (Hfails : forall e,
             (exists i c, checkers s !! i = Some c
                          /\ check_failed namespaceID e i c)
             <-> check_fails namespaceID entries e).
  { intros e. split.
    - intros (i & c & Hc & _ & Hans). destruct (Hcs _ _ Hc) as [He _].
      exists i, (chk_name c), (chk_version c). auto.
    - intros (i & n & v & Hi & Hans).
      pose proof (lookup_lt_Some _ _ _ Hi) as Hlt. rewrite <- Hlen in Hlt.
      apply lookup_lt_is_Some_2 in Hlt as [c Hc].
      destruct (Hcs _ _ Hc) as [He _].
      assert (Heq : (chk_name c, chk_version c) = (n, v)) by congruence.
      injection Heq as Hn Hv.
      exists i, c. split; [exact Hc|]. split; [eauto|].
      unfold check_request. now rewrite Hn, Hv. }
  split; [exact Hentries|]. split; [|split; [lia|]].
  { apply Forall_lookup. intros i c Hc. eauto. }
  rewrite Herr.
  destruct (first_error (chk_received s)) as [e|] eqn:Hfirst.
  - assert (He : check_fails namespaceID entries e).
    { apply Hfails, Hrcv. now apply first_error_Some. }
    split; [split; [eauto | discriminate]|].
    intros e' [= <-]. exact He.
  - split; [|discriminate].
    split; [congruence|]. intros (e & He).
    apply Hfails, Hrcv in He.
    now apply first_error_None with (e := e) in Hfirst.
Qed.

End CheckFacts.

Section CheckExtras.

Variable namespaceID : string.
Context {propagationClient : PropagationClient}.

(** X12.  CheckUnversionedRampUserDataPropagation returns a non-nil
    error iff the check of at least one task queue of the map failed,
    and the error it returns is the error of one of these checks; each
    check is made for an entry of the map, with that entry's version. *)
Theorem check_propagation_first_error_wins input res :
  CheckUnversionedRampUserDataPropagation namespaceID input res ->
  exists entries,
    entries ≡ₚ map_to_list (in_TaskQueueMaxVersions input)
    /\ (forall n v, (n, v) ∈ entries
                    <-> in_TaskQueueMaxVersions input !! n = Some v)
    /\ (res <> None <-> exists e, check_fails namespaceID entries e)
    /\ (forall e, res = Some e -> check_fails namespaceID entries e).
Proof.
  intros (entries & s & Hperm & Hrun & Hfin & ->).
  destruct (check_finished namespaceID entries s Hrun Hfin)
    as (_ & _ & _ & Hiff & Hsome).
  exists entries. split; [exact Hperm|]. split; [|split; assumption].
  intros n v. rewrite Hperm. apply elem_of_map_to_list.
Qed.


(** X14.  When CheckUnversionedRampUserDataPropagation returns, it has
    launched exactly one goroutine per entry of the map, each with that
    entry's name and version, every goroutine has handed over its
    result and is gone, and as many results have been received as the
    map has entries. *)
Theorem check_propagation_waits_for_all input entries s :
  entries ≡ₚ map_to_list (in_TaskQueueMaxVersions input) ->
  rtc (check_step namespaceID entries) (check_init entries) s ->
  chk_main s = Returning ->
  ((fun c => (chk_name c, chk_version c)) <$> checkers s)
    ≡ₚ map_to_list (in_TaskQueueMaxVersions input)
  /\ Forall (fun c => chk_phase c = Gone) (checkers s)
  /\ length (chk_received s) = size (in_TaskQueueMaxVersions input).
Proof.
  intros Hperm Hrun Hfin.
  destruct (check_finished namespaceID entries s Hrun Hfin)
    as (Hentries & Hgone & Hlen & _).
  split; [now rewrite Hentries|]. split; [exact Hgone|].
  rewrite Hlen, Hperm. apply length_map_to_list.
Qed.

End CheckExtras.

(** The run of the check of one task queue. *)
Lemma one_check_runs (client : PropagationClient) :
  rtc (check_step (propagationClient := client) "ns1" [("tq-a", 9)])
      (check_init [("tq-a", 9)])
      {| chk_main := Returning;
         checkers := [{| chk_name := "tq-a"; chk_version := 9;
                         chk_phase := Gone |}];
         chk_err :=
           cmp_Or None
                  (CheckTaskQueueUserDataPropagation 0%nat
                     {| creq_NamespaceId := "ns1"; creq_TaskQueue := "tq-a";
                        creq_Version := 9 |});
         chk_received :=
           [] ++ [CheckTaskQueueUserDataPropagation 0%nat
                    {| creq_NamespaceId := "ns1"; creq_TaskQueue := "tq-a";
                       creq_Version := 9 |}] |}.
Proof.
  unfold check_init.
  eapply rtc_l; [apply check_go|].
  eapply rtc_l; [apply check_launched|].
  eapply rtc_l; [apply (check_call _ _ 0%nat); reflexivity|].
  eapply rtc_l; [apply (check_receive _ _ 0%nat); reflexivity|].
  eapply rtc_l; [apply check_received|].
  apply rtc_refl.
Qed.

Lemma one_check_returns (client : PropagationClient) :
  CheckUnversionedRampUserDataPropagation
    (propagationClient := client) "ns1" Cases.propagationInput
    (CheckTaskQueueUserDataPropagation 0%nat
       {| creq_NamespaceId := "ns1"; creq_TaskQueue := "tq-a";
          creq_Version := 9 |}).
Proof.
  eexists [("tq-a", 9)], _. split; [|split; [apply one_check_runs|]].
  - unfold Cases.propagationInput. simpl. now rewrite map_to_list_singleton.
  - split; reflexivity.
Qed.

Lemma check_propagation_first_error_wins_witness :
  exists entries,
    (forall n v, (n, v) ∈ entries <-> ({[ "tq-a" := 9 ]} : gmap string Z) !! n = Some v)
    /\ check_fails (propagationClient := Cases.propagation_timeout)
         "ns1" entries (OtherError "deadline exceeded").
Proof.
  destruct (@check_propagation_first_error_wins
              "ns1" Cases.propagation_timeout Cases.propagationInput
              (Some (OtherError "deadline exceeded"))
              (one_check_returns Cases.propagation_timeout))
    as (entries & _ & Hin & _ & Hsome).
  exists entries. split; [exact Hin|]. now apply Hsome.
Defined.


Lemma check_propagation_waits_for_all_witness :
  exists s,
    rtc (check_step (propagationClient := Cases.propagation_done)
           "ns1" [("tq-a", 9)])
        (check_init [("tq-a", 9)]) s
    /\ Forall (fun c => chk_phase c = Gone) (checkers s)
    /\ length (chk_received s) = size ({[ "tq-a" := 9 ]} : gmap string Z).
Proof.
  eexists. split; [apply (one_check_runs Cases.propagation_done)|].
  apply (@check_propagation_waits_for_all
           "ns1" Cases.propagation_done Cases.propagationInput
           [("tq-a", 9)] _);
    [|apply (one_check_runs Cases.propagation_done) | reflexivity].
  unfold Cases.propagationInput. simpl. now rewrite map_to_list_singleton.
Defined.

(** ** The bulk indexer *)

Section BulkIndexerExtras.

Context {Doc : Type} {es : @EsBulkIndexer Doc}.

(** X15.  [Add] never drops a request silently: it either hands
    exactly one item to the indexer and returns the indexer's answer,
    or hands over nothing and returns an error.  The latter happens
    exactly for request types other than index and delete.  An item
    carries the request's index, id and version with the external
    version type; the body is the document for an index request and
    absent for a delete request. *)
Theorem bulkIndexerImpl_Add_forwards (request : @BulkIndexerRequest Doc) :
  let out := run (bulkIndexerImpl_Add request) in
  (exists item,
      added out.2 = [item]
      /\ out.1 = es_Add item
      /\ bii_Index item = bir_Index request
      /\ bii_DocumentID item = bir_ID request
      /\ bii_Version item = bir_Version request
      /\ bii_VersionType item = "external"
      /\ ((bir_RequestType request = BulkableRequestTypeIndex
           /\ bii_Action item = "index"
           /\ bii_Body item = bir_Doc request)
          \/ (bir_RequestType request = BulkableRequestTypeDelete
              /\ bii_Action item = "delete"
              /\ bii_Body item = None)))
  \/ (out.2 = []
      /\ out.1 <> None
      /\ bir_RequestType request <> BulkableRequestTypeIndex
      /\ bir_RequestType request <> BulkableRequestTypeDelete).
Proof.
  intros out. subst out.
  unfold run, bulkIndexerImpl_Add, bind, emit, ret.
  destruct (Z.eqb_spec (bir_RequestType request) BulkableRequestTypeIndex)
    as [Hidx|Hidx].
  - left. eexists. simpl. do 6 (split; [reflexivity|]). left. auto.
  - destruct (Z.eqb_spec (bir_RequestType request) BulkableRequestTypeDelete)
      as [Hdel|Hdel].
    + left. eexists. simpl. do 6 (split; [reflexivity|]). right. auto.
    + right. simpl. split; [reflexivity|]. split; [discriminate|]. auto.
Qed.

End BulkIndexerExtras.

(** ** The persistence factory *)

Section FactoryExtras.

Context {RequestRateLimiter MetricsHandler HealthSignalAggregator : Type}.
Context {Store Serializer RetryPolicy Logger Config XDCCache : Type}.
Variable NoopMetricsHandler : MetricsHandler.
Variable NoopHealthSignalAggregator : HealthSignalAggregator.
Variable retryPolicy : RetryPolicy.
Variable NewSerializer : Serializer.

Local Abbreviation newFactory :=
  (@NewFactory RequestRateLimiter MetricsHandler HealthSignalAggregator
     Store Serializer Logger Config XDCCache
     NoopMetricsHandler NoopHealthSignalAggregator).

(** X16.  A factory built by [NewFactory] has a metrics handler iff it
    has a health-signal aggregator, and it has both iff at least one of
    the two was given; the missing one is the no-op one.  The
    aggregator is started exactly once in that case, and nothing is
    started when neither was given.  The rate limiters are kept as
    given. *)
Theorem NewFactory_metrics_iff_health_signals
    dsf cfg system namespace shard ser cache cluster handler lg signals :
  let out := run (newFactory dsf cfg system namespace shard ser cache cluster
                             handler lg signals) in
  (metricsHandler out.1 = None <-> healthSignals out.1 = None)
  /\ (metricsHandler out.1 = None <-> handler = None /\ signals = None)
  /\ metricsHandler out.1
     = match handler, signals with
       | None, None => None
       | _, _ => Some (default NoopMetricsHandler handler)
       end
  /\ healthSignals out.1
     = match handler, signals with
       | None, None => None
       | _, _ => Some (default NoopHealthSignalAggregator signals)
       end
  /\ out.2 = (match healthSignals out.1 with
              | Some h => [EvHealthSignalsStart h]
              | None => []
              end)
  /\ systemRateLimiter out.1 = system
  /\ namespaceRateLimiter out.1 = namespace
  /\ shardRateLimiter out.1 = shard.
Proof.
  intros out. subst out.
  unfold run, NewFactory, initDependencies, bind, emit, ret. simpl.
  destruct handler as [h|], signals as [s|]; simpl;
    repeat split; try discriminate; try reflexivity;
    intros [H1 H2]; discriminate.
Qed.

(** X17.  Over the life of a factory, from [NewFactory] to [Close], the
    health-signal aggregator that is stopped is the one that was
    started: it is started and stopped once each when the factory has
    one, and neither otherwise; the data store factory is closed in
    every case, before the aggregator is stopped. *)
Theorem factory_start_stop_paired
    dsf cfg system namespace shard ser cache cluster handler lg signals :
  let built := run (newFactory dsf cfg system namespace shard ser cache cluster
                               handler lg signals) in
  let tr := (factoryImpl_Close built.1 built.2).2 in
  started tr = stopped tr
  /\ (length (started tr) <= 1)%nat
  /\ (started tr = [] <-> handler = None /\ signals = None)
  /\ tr = built.2 ++ EvDataStoreFactoryClose
                  :: (EvHealthSignalsStop <$> stopped tr).
Proof.
  intros built tr. subst built tr.
  unfold run, NewFactory, initDependencies, factoryImpl_Close, bind, emit, ret.
  simpl.
  destruct handler as [h|], signals as [s|]; simpl;
    (split; [reflexivity|]); (split; [lia|]); (split; [|reflexivity]);
    split; try discriminate; try (intros [H1 H2]; discriminate); auto.
Qed.

(** X18.  Every task manager a factory built by [NewFactory] vends
    retries transient errors, Unavailable and DataLoss and no other,
    as its outermost client; inside it the manager is metered iff a
    metrics handler or a health-signal aggregator was given, and
    inside that rate limited iff both the system and the namespace rate
    limiter were given, a shard rate limiter alone being of no effect.
    A failure of the store is returned as it is.  The history task queue
    manager is vended without any of these clients. *)
Theorem NewTaskManager_layers
    dsf cfg system namespace shard ser cache cluster handler lg signals :
  let f := (run (newFactory dsf cfg system namespace shard ser cache cluster
                            handler lg signals)).1 in
  (forall e,
      NewTaskStore (DataStoreFactory := dsf) = Err e ->
      NewTaskManager retryPolicy f = Err e)
  /\ (forall taskStore,
         NewTaskStore (DataStoreFactory := dsf) = Ok taskStore ->
         exists inner,
           NewTaskManager retryPolicy f
           = Ok (RetryableClient inner retryPolicy IsPersistenceTransientError)
           /\ layers inner
              = match handler, signals with
                | None, None => []
                | _, _ => [Metrics]
                end
                ++ match system, namespace with
                   | Some _, Some _ => [RateLimited]
                   | _, _ => []
                   end)
  /\ (forall m,
         NewHistoryTaskQueueManager (RetryPolicy := RetryPolicy)
           NewSerializer f = Ok m ->
         layers m = [])
  /\ (forall err,
         IsPersistenceTransientError err = true
         <-> exists msg, err = Some (Unavailable msg)
                         \/ err = Some (DataLoss msg)).
Proof.
  intros f. subst f.
  unfold run, NewFactory, initDependencies, bind, emit, ret. simpl.
  split; [|split; [|split]].
  - intros e He. unfold NewTaskManager.
    destruct handler, signals; simpl; now rewrite He.
  - intros taskStore Hs. unfold NewTaskManager.
    destruct handler as [h|], signals as [s|], system as [sy|],
      namespace as [ns|]; simpl; rewrite Hs; eexists;
      (split; [reflexivity|]); reflexivity.
  - intros m. unfold NewHistoryTaskQueueManager.
    destruct handler, signals; simpl;
      destruct NewQueueV2; intros [= <-]; reflexivity.
  - intros [[msg|msg|msg|msg]|]; simpl; split;
      try discriminate; try (intros _; exists msg; now eauto);
      try (intros [m [H|H]]; discriminate); auto.
Qed.

End FactoryExtras.

Lemma NewTaskManager_layers_witness :
  exists inner,
    NewTaskManager "policy" (run Cases.halfConfigured).1
    = Ok (RetryableClient inner "policy" IsPersistenceTransientError)
    /\ layers inner = [Metrics].
Proof.
  apply (proj1 (proj2 (@NewTaskManager_layers
                         string string string nat unit string unit unit unit
                         "noop-metrics" "noop-signals" "policy" tt
                         Cases.stores tt (Some "system") None None tt tt
                         "active" None tt (Some "signals")))
               1%nat).
  reflexivity.
Defined.

(** ** The Elasticsearch client *)

Section EsClientExtras.

Context {Query Sorter SortValue PointInTime Encoded SearchResult : Type}.
Context {transport :
          @EsTransport Query Sorter SortValue PointInTime Encoded SearchResult}.

(** X19.  [IndexExists] sends one exists request for the index.  It
    answers true exactly when the request went through with status 200,
    answers false without an error exactly when it went through with
    status 404, and reports an error in every other case; it never
    answers true together with an error.  The body of a response is
    closed once, whatever the status. *)
Theorem IndexExists_status (indexName : string) :
  let out := run (IndexExists indexName) in
  let answer := Do (IndicesExistsRequest [indexName]) in
  sent out.2 = [IndicesExistsRequest [indexName]]
  /\ (out.1.1 = true
      <-> exists res, answer = EsOk res /\ StatusCode res = 200)
  /\ (out.1 = (false, None)
      <-> exists res, answer = EsOk res /\ StatusCode res = 404)
  /\ (out.1.1 = true -> out.1.2 = None)
  /\ closed_bodies out.2 = match answer with
                           | EsOk res => [res]
                           | EsErr _ => []
                           end.
Proof.
  intros out answer. subst out answer.
  unfold run, IndexExists, call_Do, defer, bind, emit, ret. simpl.
  destruct (Do (IndicesExistsRequest [indexName])) as [res|err]; simpl.
  - destruct (Z.eqb_spec (StatusCode res) StatusOK) as [H200|H200]; simpl.
    + unfold StatusOK in H200.
      repeat split; eauto; try discriminate.
      intros (res' & [= <-] & H404). lia.
    + destruct (Z.eqb_spec (StatusCode res) StatusNotFound) as [H404|H404];
        simpl; unfold StatusOK, StatusNotFound in *.
      * repeat split; eauto; try discriminate.
        intros (res' & [= <-] & H). lia.
      * repeat split; eauto; try discriminate.
        -- intros (res' & [= <-] & H). lia.
        -- intros (res' & [= <-] & H). lia.
  - repeat split; try discriminate.
    + intros (res' & H & _). discriminate.
    + intros (res' & H & _). discriminate.
Qed.


(** The keys of the body [Search] builds. *)
Lemma searchQuery_keys
    (p : @SearchParametersNew Query Sorter SortValue PointInTime) :
  let query := searchQuery p in
  query !! "query" = Some (JQuery (sp_Query p))
  /\ query !! "sort" = Some (JSorter (sp_Sorter p))
  /\ query !! "track_total_hits" = Some (JBool false)
  /\ query !! "size"
     = (if sp_PageSize p =? 0 then None else Some (JInt (sp_PageSize p)))
  /\ query !! "search_after"
     = match sp_SearchAfter p with
       | [] => None
       | _ => Some (JSearchAfter (sp_SearchAfter p))
       end
  /\ query !! "point_in_time"
     = match sp_PointInTime p with
       | None => None
       | Some pit => Some (JPointInTimeObject pit "1m")
       end.
Proof.
  unfold searchQuery.
  destruct (sp_PageSize p =? 0), (sp_SearchAfter p), (sp_PointInTime p);
    simpl; repeat split;
    repeat first
      [ rewrite lookup_insert_eq
      | rewrite lookup_insert_ne by discriminate
      | rewrite lookup_empty ];
    reflexivity.
Qed.


End EsClientExtras.


